(** * AL_Excel.Coordinates: a shallow embedding and its verified properties

    The development follows [AL_Excel/Coordinates.py]: the [Index] named
    tuple, the [Coordinate] class, the three compiled patterns [FULLRE],
    [COLUMNRE] and [ROWRE], and the functions [converttotuple],
    [parseindex], [parsecoordregex] and [addindices].

    Conventions of the embedding.
    - Python text is an ASCII [string]; the patterns are compiled with
      [re.IGNORECASE], which on ASCII text folds the letters A-Z only.
    - Python integers are [Z]; the interpreter's configurable limit on the
      number of digits of an int/str conversion is not modelled.
    - A raised exception is a value [Raise cls msg] of the [result] type:
      [cls] is the Python class, [msg] names the message template of the
      [raise] statement, so that two raise sites of one class stay apart. *)

From Stdlib Require Import ZArith List String Ascii Bool Lia.
From Stdlib Require Import DecimalString DecimalZ DecimalPos.
From Stdlib Require Import Permutation.
Import ListNotations.

#[local] Open Scope string_scope.
#[local] Open Scope Z_scope.

(** ** Exceptions and results *)

Inductive exc_class : Type :=
| AttributeError
| TypeError
| ValueError
| SyntaxError
| IndexError
| LibraryError.   (* an exception of the spreadsheet library, of a class
                     that the sources do not fix *)

(** One constructor per message template of the source, of the spreadsheet
    library and of the interpreter's own failures. *)
Inductive message : Type :=
| InvalidValuesForCoordinate      (* "Invalid values for cooridinate: ..." *)
| CannotAddTwoAbsoluteReferences  (* "Cannot add two Absolute references: ..." *)
| InvalidCoordinates              (* "Invalid coordinates: ..." *)
| MustBeStringOrTuple             (* "Cooridinates must be Coordinate-Formatted string or a tuple: ..." *)
| NoIndiciesProvided              (* "No Indicies provided: ..." *)
| DuplicatedArguments             (* "Duplicated Arguments: ..." *)
| PartLength                      (* "Coordinate part's length should be 1 or 2 ..." *)
| UnknownAbsoluteString           (* "Coordinate part's second index is an unknown string: ..." *)
| SecondIndexNotBoolean           (* "Coordinate part's second index must be True or False, ..." *)
| SecondIndexContradicts          (* "Coordinate part's second index contradicts the first: ..." *)
| NotRecognizedFormat             (* "Coordinate part is not a recognized format: ..." *)
| NoIdentifiablePattern           (* "String does not match any identifiable ... patterns: ..." *)
| IncompleteMissing (bracket : ascii) (* "Incomplete coordinate description: missing ]." *)
| CannotAddTwoAbsoluteIndices     (* "Cannot add two Absolute Indices: ..." *)
| TypeMismatch                    (* "Type mismatch between Indices: ..." *)
| ReducedBelowZero                (* "Absolute Reference reduced below 0: ..." *)
| InvalidColumnIndex              (* openpyxl: "Invalid column index ..." *)
| NoColumnIndex                   (* openpyxl, on [None] for a column index *)
| NotValidColumnName              (* openpyxl: "... is not a valid column name" *)
| InvalidLiteral                  (* interpreter: "invalid literal for int() with base 10" *)
| UnsupportedOperand              (* interpreter: "unsupported operand type(s) for +" *)
| OutOfRange                      (* interpreter: "... index out of range" *)
| ExpectedString.                 (* interpreter: "expected string or bytes-like object" *)

Inductive result (A : Type) : Type :=
| Ok (a : A)
| Raise (cls : exc_class) (msg : message).

Arguments Ok {A} a.
Arguments Raise {A} cls msg.

Definition bind {A B : Type} (m : result A) (k : A -> result B) : result B :=
  match m with
  | Ok a => k a
  | Raise c e => Raise c e
  end.

Notation "x <- m ;; k" := (bind m (fun x => k))
  (at level 61, m at next level, right associativity).

(** [try: m except: h] with a bare (or [Exception]) handler. *)
Definition try_except {A : Type} (m : result A) (h : result A) : result A :=
  match m with
  | Ok a => Ok a
  | Raise _ _ => h
  end.

(** ** Characters and text *)

Definition code (c : ascii) : N := N_of_ascii c.

Definition isdigit (c : ascii) : bool :=
  ((48 <=? code c) && (code c <=? 57))%N.

Definition isupper (c : ascii) : bool :=
  ((65 <=? code c) && (code c <=? 90))%N.

Definition islower (c : ascii) : bool :=
  ((97 <=? code c) && (code c <=? 122))%N.

Definition lower_char (c : ascii) : ascii :=
  if isupper c then ascii_of_N (code c + 32) else c.

Definition upper_char (c : ascii) : ascii :=
  if islower c then ascii_of_N (code c - 32) else c.

Fixpoint map_string (f : ascii -> ascii) (s : string) : string :=
  match s with
  | EmptyString => EmptyString
  | String c s' => String (f c) (map_string f s')
  end.

(** [str.lower] and [str.upper]. *)
Definition lower (s : string) : string := map_string lower_char s.
Definition upper (s : string) : string := map_string upper_char s.

Fixpoint forall_string (p : ascii -> bool) (s : string) : bool :=
  match s with
  | EmptyString => true
  | String c s' => p c && forall_string p s'
  end.

(** [str(n)] and [int(s)] on the decimal texts the patterns let through. *)
Definition str_int (n : Z) : string := NilZero.string_of_int (Z.to_int n).

Definition int_str (s : string) : option Z :=
  option_map Z.of_int (NilZero.int_of_string s).

(** ** The pattern language of the three compiled patterns

    Only the constructs that occur in [FULLRE], [COLUMNRE] and [ROWRE]:
    literals, the two one-character sets under a greedy [+], a greedy [?],
    ordered alternation, named groups and the two anchors.  The matcher is
    a backtracking matcher in continuation-passing style, with Python's
    priorities: the left alternative first, the longest repetition first. *)

Inductive cset : Type :=
| Digit    (* \d *)
| Letter.  (* [A-Z] under IGNORECASE *)

Definition mem (cs : cset) (c : ascii) : bool :=
  match cs with
  | Digit => isdigit c
  | Letter => isupper c || islower c
  end.

Inductive regex : Type :=
| Eps                                (* the empty pattern *)
| Chr (c : ascii)                    (* a literal character, IGNORECASE *)
| Cat (r1 r2 : regex)                (* r1 r2 *)
| Or (r1 r2 : regex)                 (* r1 | r2 *)
| Opt (r : regex)                    (* r? *)
| Plus (cs : cset)                   (* cs+ *)
| Group (name : string) (r : regex)  (* (?P<name> r) *)
| Bos                                (* ^ *)
| Eos.                               (* $ *)

(** The groups that took part in a match, latest first; a group that did
    not take part is not listed ([m.group(name)] is [None]). *)
Definition groups : Type := list (string * string).

Fixpoint group (m : groups) (name : string) : option string :=
  match m with
  | [] => None
  | (n, v) :: m' => if String.eqb n name then Some v else group m' name
  end.

(** [bool(m.group(name))]: [None] and the empty text are false. *)
Definition truthy (v : option string) : bool :=
  match v with
  | Some (String _ _) => true
  | _ => false
  end.

Definition ieq (c x : ascii) : bool := Ascii.eqb (lower_char c) (lower_char x).

Fixpoint plus (p : ascii -> bool) (k : nat -> string -> string -> option groups)
    (i : nat) (s : string) : option groups :=
  match s with
  | EmptyString => None
  | String c s' =>
      if p c then
        match plus p (fun i' m s'' => k i' (String c m) s'') (S i) s' with
        | Some r => Some r
        | None => k (S i) (String c EmptyString) s'
        end
      else None
  end.

(** [run r i s g k]: match [r] at position [i], where [s] is the text from
    [i] on and [g] the groups so far, then continue with [k] on the
    position reached, the text matched by [r], the text left and the
    groups. *)
Fixpoint run (r : regex) (i : nat) (s : string) (g : groups)
    (k : nat -> string -> string -> groups -> option groups) : option groups :=
  match r with
  | Eps => k i EmptyString s g
  | Chr c =>
      match s with
      | String x s' => if ieq c x then k (S i) (String x EmptyString) s' g else None
      | EmptyString => None
      end
  | Cat r1 r2 =>
      run r1 i s g
        (fun i1 m1 s1 g1 =>
           run r2 i1 s1 g1 (fun i2 m2 s2 g2 => k i2 (m1 ++ m2) s2 g2))
  | Or r1 r2 =>
      match run r1 i s g k with
      | Some m => Some m
      | None => run r2 i s g k
      end
  | Opt r' =>
      match run r' i s g k with
      | Some m => Some m
      | None => k i EmptyString s g
      end
  | Plus cs => plus (mem cs) (fun i' m s' => k i' m s' g) i s
  | Group name r' =>
      run r' i s g (fun i' m s' g' => k i' m s' ((name, m) :: g'))
  | Bos => if Nat.eqb i 0 then k i EmptyString s g else None
  | Eos =>
      match s with
      | EmptyString => k i EmptyString s g
      | String c EmptyString =>
          if Ascii.eqb c "010" then k i EmptyString s g else None
      | _ => None
      end
  end.

Definition match_at (r : regex) (i : nat) (s : string) : option groups :=
  run r i s [] (fun _ _ _ g => Some g).

Fixpoint search_from (r : regex) (i : nat) (s : string) : option groups :=
  match match_at r i s with
  | Some m => Some m
  | None =>
      match s with
      | EmptyString => None
      | String _ s' => search_from r (S i) s'
      end
  end.

(** [pattern.search(value)]. *)
Definition search (r : regex) (value : string) : option groups :=
  search_from r 0 value.

(** A sequence of patterns. *)
Fixpoint cat (rs : list regex) : regex :=
  match rs with
  | [] => Eps
  | [r] => r
  | r :: rs' => Cat r (cat rs')
  end.

(** [FULLRE], [COLUMNRE] and [ROWRE], group for group ([re.VERBOSE] drops
    the blanks and the comments of the source text). *)
Definition FULLRE_RC : regex :=                               (* R1C1 *)
  Group "RC"
    (cat [ Group "RCrow"
             (cat [ Chr "R";
                    Group "absolute1" (Opt (Chr "["));
                    Group "RCrowid" (cat [Opt (Chr "-"); Plus Digit]);
                    Group "absolute2" (Opt (Chr "]")) ]);
           Group "RCcolumn"
             (cat [ Chr "C";
                    Opt (Group "absolute3" (Chr "["));
                    Group "RCcolumnid" (cat [Opt (Chr "-"); Plus Digit]);
                    Group "absolute4" (Opt (Chr "]")) ]) ]).

Definition FULLRE_A1 : regex :=                               (* A1 *)
  Group "A1"
    (cat [ Group "A1column"
             (cat [ Group "absoluteB" (Opt (Chr "$"));
                    Group "A1columnid" (Plus Letter) ]);
           Group "A1row"
             (cat [ Group "absoluteA" (Opt (Chr "$"));
                    Group "A1rowid" (Plus Digit) ]) ]).

Definition FULLRE : regex :=
  cat [ Bos; Group "match" (Or FULLRE_RC FULLRE_A1); Eos ].

Definition COLUMNRE : regex :=
  Group "match"
    (Or
       (cat [ Chr "C";                                         (* R1C1 *)
              Group "absolute1" (Opt (Chr "["));
              Group "RCcolumn" (cat [Opt (Chr "-"); Plus Digit]);
              Group "absolute2" (Opt (Chr "]")) ])
       (cat [ Group "absolute" (Opt (Chr "$"));                (* A1 *)
              Group "A1column" (Plus Letter) ])).

Definition ROWRE : regex :=
  Group "match"
    (Or
       (cat [ Chr "R";                                         (* R1C1 *)
              Group "absolute1" (Opt (Chr "["));
              Group "RCrow" (cat [Opt (Chr "-"); Plus Digit]);
              Group "absolute2" (Opt (Chr "]")) ])
       (cat [ Group "absolute" (Opt (Chr "$"));                (* A1 *)
              Group "A1row" (Plus Digit) ])).

(** ** The data model *)

(** ["row"] and ["column"]; the type [None] of a not yet determined axis is
    the [None] of [option IndexType]. *)
Inductive IndexType : Type :=
| Row
| Column.

Definition IndexType_eqb (a b : IndexType) : bool :=
  match a, b with
  | Row, Row | Column, Column => true
  | _, _ => false
  end.

Definition type_eqb (a b : option IndexType) : bool :=
  match a, b with
  | None, None => true
  | Some x, Some y => IndexType_eqb x y
  | _, _ => false
  end.

Definition type_name (t : IndexType) : string :=
  match t with
  | Row => "row"
  | Column => "column"
  end.

(** The named tuple [Index(type, value, absolute)], typed as annotated. *)
Record Index : Type := mkIndex {
  type : option IndexType;
  value : option Z;
  absolute : bool
}.

(** [index._replace(type = t)]. *)
Definition replace_type (index : Index) (t : IndexType) : Index :=
  mkIndex (Some t) (value index) (absolute index).

#[local] Set Warnings "-register-all".

(** The values a caller can pass as an [IndexDescriptor] or a
    [CoordinateDescriptor].  [DOther] stands for an object of any other
    class (neither iterable nor equal to 0 or 1). *)
Inductive descriptor : Type :=
| DNone
| DBool (b : bool)
| DInt (n : Z)
| DStr (s : string)
| DIndex (i : Index)
| DTuple (l : list descriptor)
| DList (l : list descriptor)
| DOther.

(** Order than Coordinates should be displayed *)
Definition COORDINATEORDER (i : nat) : IndexType :=
  match i with
  | O => Row
  | _ => Column
  end.

(** ** The column names of the spreadsheet library *)

(** Modelled from the spec: [openpyxl.utils.cell.get_column_letter], the
    collaborator's half of "Column letters map to 1-based numeric positions
    using the standard base-26 letter-to-number mapping (A=1 ... Z=26,
    AA=27 ...)"; the collaborator knows the names A to ZZZ, that is the
    positions 1 to 18278, and raises [ValueError] for any other index. *)
Fixpoint column_letters (fuel : nat) (col_idx : Z) (letters : string) : string :=
  match fuel with
  | O => letters
  | S fuel' =>
      if col_idx <=? 0 then letters
      else
        let remainder := col_idx mod 26 in
        if remainder =? 0
        then column_letters fuel' (col_idx / 26 - 1) (String "Z" letters)
        else column_letters fuel' (col_idx / 26)
               (String (ascii_of_N (Z.to_N (remainder + 64))) letters)
  end.

Definition get_column_letter (idx : Z) : result string :=
  if (1 <=? idx) && (idx <=? 18278)
  then Ok (column_letters 3 idx EmptyString)
  else Raise ValueError InvalidColumnIndex.

(** Modelled from the spec: [openpyxl.utils.cell.column_index_from_string],
    the inverse mapping of the same sentence of the spec (A=1 ... Z=26,
    AA=27 ...), on the upper-cased name; a text that is not one of the
    names A to ZZZ raises [ValueError]. *)
Fixpoint column_number (acc : Z) (name : string) : Z :=
  match name with
  | EmptyString => acc
  | String c name' => column_number (26 * acc + (Z.of_N (code c) - 64)) name'
  end.

Definition column_index_from_string (str_col : string) : result Z :=
  let name := upper str_col in
  if forall_string isupper name
     && (1 <=? String.length name)%nat && (String.length name <=? 3)%nat
  then Ok (column_number 0 name)
  else Raise ValueError NotValidColumnName.

(** ** parsecoordregex *)

(** [int(m.group(name))]. *)
Definition int (v : option string) : result Z :=
  match v with
  | None => Raise TypeError ExpectedString
  | Some s =>
      match int_str s with
      | Some n => Ok n
      | None => Raise ValueError InvalidLiteral
      end
  end.

Definition parsecoordregex (value : string) (colrow : IndexType) : result Index :=
  match search (match colrow with Column => COLUMNRE | Row => ROWRE end) value with
  | None => Raise ValueError NoIdentifiablePattern
  | Some regex =>
      if truthy (group regex ("A1" ++ type_name colrow)) then
        index <- match colrow with
                 | Column =>
                     match group regex "A1column" with
                     | Some index => column_index_from_string index
                     | None => Raise TypeError ExpectedString
                     end
                 | Row => int (group regex "A1row")
                 end ;;
        Ok (mkIndex (Some colrow) (Some index) (truthy (group regex "absolute")))
      else
        let abs1 := truthy (group regex "absolute1") in
        let abs2 := truthy (group regex "absolute2") in
        (* If both are not true, then we are missing one of the brackets *)
        if negb (Bool.eqb abs1 abs2) then
          (* If abs1 is True, then we are missing the closing bracket (abs2) *)
          let missing := if abs1 then "]"%char else "["%char in
          Raise SyntaxError (IncompleteMissing missing)
        else
          index <- int (group regex ("RC" ++ type_name colrow)) ;;
          Ok (mkIndex (Some colrow) (Some index) (abs1 && abs2))
  end.

(** ** parseindex *)

(** The second element of an [(index, absolute)] sequence: the aliases
    ["$"] and ["absolute"], the empty text, and whatever is equal to one of
    [0, 1, True, False]. *)
Definition absolute_flag (absolute : descriptor) : result bool :=
  match absolute with
  | DStr a =>
      let a := lower a in
      (* Acceptable absolute = True values *)
      if String.eqb a "$" || String.eqb a "absolute" then Ok true
      (* Only absolute = False value *)
      else if String.eqb a EmptyString then Ok false
      else Raise ValueError UnknownAbsoluteString
  | DBool b => Ok b
  | DInt n =>
      if n =? 0 then Ok false
      else if n =? 1 then Ok true
      else Raise ValueError SecondIndexNotBoolean
  | _ => Raise ValueError SecondIndexNotBoolean
  end.

Fixpoint parseindex (val : descriptor) : result Index :=
  let sequence (l : list descriptor) : result Index :=
    if (2 <? List.length l)%nat then Raise ValueError PartLength
    else
      match l with
      | [] => Raise IndexError OutOfRange
      | value0 :: rest =>
          (* Recurse the first value *)
          index <- parseindex value0 ;;
          match rest with
          | [] => Ok index
          | value1 :: _ =>
              absolute' <- absolute_flag value1 ;;
              (* Check collision between index defined in value[0] *)
              if absolute index && negb absolute'
              then Raise ValueError SecondIndexContradicts
              else Ok (mkIndex (type index) (value index) absolute')
          end
      end in
  match val with
  | DNone => Ok (mkIndex None None false)
  | DInt n => Ok (mkIndex None (Some n) true)
  | DStr s =>
      try_except (parsecoordregex s Column) (parsecoordregex s Row)
  | DIndex index => Ok index
  | DTuple l => sequence l
  | DList l => sequence l
  (* Everything else *)
  | DBool _ | DOther => Raise ValueError NotRecognizedFormat
  end.

(** ** converttotuple *)

Definition is_type (t : IndexType) (index : Index) : bool :=
  type_eqb (type index) (Some t).

(** [l[0]]. *)
Definition first (l : list Index) : result Index :=
  match l with
  | x :: _ => Ok x
  | [] => Raise IndexError OutOfRange
  end.

(** The part of [converttotuple] after [indices] has been built from the
    two components: [indices0] and [indices1] are [indices[0]] and
    [indices[1]]. *)
Definition disambiguate (indices0 indices1 : Index) : result (Index * Index) :=
  let nonindices :=
    filter (fun index => match value index with None => true | Some _ => false end)
      [indices0; indices1] in
  (* Both are None indexes *)
  if (2 <=? List.length nonindices)%nat then Raise ValueError NoIndiciesProvided
  else if (1 <=? List.length nonindices)%nat then
    let goodind := match value indices0 with Some _ => 0%nat | None => 1%nat end in
    let goodindex := match goodind with O => indices0 | _ => indices1 end in
    match type goodindex with
    | None =>
        (* type is determined by position in the tuple *)
        let goodindex := replace_type goodindex (COORDINATEORDER goodind) in
        (* [goodindex] is not stored back into [indices] *)
        Ok (indices0, indices1)
    | Some t =>
        (* Otherwise, we need to double-check goodindex's position in the tuple *)
        if negb (IndexType_eqb t (COORDINATEORDER goodind))
        then Ok (indices1, indices0)
        else Ok (indices0, indices1)
    end
  (* row/column are ambiguous *)
  else if type_eqb (type indices0) None && type_eqb (type indices1) None then
    (* Assign their types in order *)
    Ok (replace_type indices0 Row, replace_type indices1 Column)
  else
    indices <-
      (* Indices are of the same type *)
      (if type_eqb (type indices0) (type indices1) then
         (* If both are rows, then we can try assume one to actually be a
            column index *)
         if is_type Row indices0 && is_type Row indices1 then
           (* If only one is absolute, then the other can be assumed to be
              relative *)
           if absolute indices0 && negb (absolute indices1)
           then Ok (indices0, replace_type indices1 Column)
           else if absolute indices1 && negb (absolute indices0)
           then Ok (indices0, replace_type indices0 Column)
           else if negb (absolute indices0) && negb (absolute indices1)
           then Ok (indices0, replace_type indices1 Column)
           else Raise ValueError DuplicatedArguments
         else Raise ValueError DuplicatedArguments
       else Ok (indices0, indices1)) ;;
    let indices := [fst indices; snd indices] in
    let row := filter (is_type Row) indices in
    let column := filter (is_type Column) indices in
    let ambiguous :=
      filter (fun index => type_eqb (type index) None) indices in
    match row, column with
    | _ :: _, [] =>
        row <- first row ;;
        column <- first ambiguous ;;
        Ok (row, replace_type column Column)
    | [], _ :: _ =>
        column <- first column ;;
        row <- first ambiguous ;;
        Ok (replace_type row Row, column)
    | _, _ =>
        row <- first row ;;
        column <- first column ;;
        Ok (row, column)
    end.

(** [parsecoordregex(regex.group(name), colrow)]. *)
Definition parsecoordgroup (regex : groups) (name : string) (colrow : IndexType)
    : result Index :=
  match group regex name with
  | Some text => parsecoordregex text colrow
  | None => Raise TypeError ExpectedString
  end.

Definition converttotuple (val : descriptor) : result (Index * Index) :=
  match val with
  | DStr s =>
      match search FULLRE s with
      | Some regex =>
          let syntax := if truthy (group regex "RC") then "RC" else "A1" in
          row <- parsecoordgroup regex (syntax ++ "row") Row ;;
          column <- parsecoordgroup regex (syntax ++ "column") Column ;;
          Ok (row, column)
      | None => Raise TypeError InvalidCoordinates
      end
  | DTuple [index1; index2] | DList [index1; index2] =>
      indices0 <- parseindex index1 ;;
      indices1 <- parseindex index2 ;;
      disambiguate indices0 indices1
  | _ => Raise TypeError MustBeStringOrTuple
  end.

(** ** The Coordinate class *)

Record Coordinate : Type := mkCoordinate {
  _row : Index;
  _column : Index
}.

(** The default [False] of the parameter [column]. *)
Definition no_column : descriptor := DBool false.

Definition is_False (d : descriptor) : bool :=
  match d with
  | DBool false => true
  | _ => false
  end.

(** [Coordinate(row, column)]; [Coordinate(row)] is
    [Coordinate_init row no_column]. *)
Definition Coordinate_init (row column : descriptor) : result Coordinate :=
  match row, is_False column with
  | DStr _, true =>
      rc <- converttotuple row ;;
      Ok (mkCoordinate (fst rc) (snd rc))
  | _, _ =>
      let column := if is_False column then DNone else column in
      rc <- try_except (converttotuple (DTuple [row; column]))
              (Raise AttributeError InvalidValuesForCoordinate) ;;
      Ok (mkCoordinate (fst rc) (snd rc))
  end.

(** The properties [row] and [column]. *)
Definition row (self : Coordinate) : option Z := value (_row self).
Definition column (self : Coordinate) : option Z := value (_column self).

Definition isabsolute (self : Coordinate) : bool :=
  absolute (_column self) || absolute (_row self).

(** [str(v)] of a value that may be [None]. *)
Definition str (v : option Z) : string :=
  match v with
  | Some n => str_int n
  | None => "None"
  end.

(** [utils.cell.get_column_letter(v)].  A column without a value is not
    an index at all: neither this repository nor its specification says
    what the spreadsheet library does with [None], and the class of its
    exception differs between the versions of the library, so that the
    outcome is kept apart from every exception the sources name. *)
Definition column_letter (v : option Z) : result string :=
  match v with
  | Some idx => get_column_letter idx
  | None => Raise LibraryError NoColumnIndex
  end.

Definition dollar (b : bool) : string := if b then "$" else EmptyString.

Definition toA1string (self : Coordinate) (absolute' : bool) : result string :=
  if negb absolute' then
    letter <- column_letter (value (_column self)) ;;
    Ok (letter ++ str (value (_row self)))
  else
    letter <- column_letter (value (_column self)) ;;
    Ok (dollar (absolute (_row self)) ++ letter
        ++ dollar (absolute (_column self)) ++ str (value (_row self))).

(** ** addindices and Coordinate.__add__ *)

Definition addindices (index1 index2 : Index) : result Index :=
  if absolute index1 && absolute index2
  then Raise AttributeError CannotAddTwoAbsoluteIndices
  else if negb (type_eqb (type index1) (type index2))
  then Raise TypeError TypeMismatch
  else
    (* Sort indices so that any absolute index is first *)
    let '(index1, index2) :=
      if absolute index2 then (index2, index1) else (index1, index2) in
    (* If index1 is absolute, then the result should be absolute *)
    match value index1, value index2 with
    | Some v1, Some v2 =>
        let result := mkIndex (type index1) (Some (v1 + v2)) (absolute index1) in
        (* If result is absolute, make sure that it is is still above 0 *)
        if absolute result && (v1 + v2 <=? 0)
        then Raise ValueError ReducedBelowZero
        else Ok result
    | _, _ => Raise TypeError UnsupportedOperand
    end.

(** The right operand of [+]: a [Coordinate], or anything else. *)
Inductive operand : Type :=
| OCoordinate (other : Coordinate)
| ODescriptor (other : descriptor).

(** [self + other] for two Coordinates. *)
Definition add_Coordinate (self other : Coordinate) : result Coordinate :=
  if (absolute (_row self) && absolute (_row other))
     || (absolute (_column self) && absolute (_column other))
  then Raise AttributeError CannotAddTwoAbsoluteReferences
  else
    row <- addindices (_row self) (_row other) ;;
    column <- addindices (_column self) (_column other) ;;
    Coordinate_init (DIndex row) (DIndex column).

(** [Coordinate.__add__]; the result [None] is what the method returns
    when it falls off its end. *)
Definition add (self : Coordinate) (other : operand) : result (option Coordinate) :=
  match other with
  | OCoordinate other =>
      sum <- add_Coordinate self other ;;
      Ok (Some sum)
  | ODescriptor other =>
      (* Otherwise, try to convert to Coordinate *)
      try_except
        (other <- Coordinate_init other no_column ;;
         sum <- add_Coordinate self other ;;
         Ok (Some sum))
        (Ok None)
  end.

(** ** Vocabulary of the statements *)

(** The optional parts of an axis token. *)
Definition bracket_open (b : bool) : string := if b then "[" else EmptyString.
Definition bracket_close (b : bool) : string := if b then "]" else EmptyString.
Definition minus (b : bool) : string := if b then "-" else EmptyString.

(** A relative-offset token: a letter, an integer, brackets or not. *)
Definition axis_token (l : ascii) (ob sgn cb : bool) (digits : string) : string :=
  String l (bracket_open ob ++ minus sgn ++ digits ++ bracket_close cb).

(** A letter-digit text: letters and digits, a dollar sign before either
    or not. *)
Definition letter_digit_text (b1 : bool) (letters : string)
    (b2 : bool) (digits : string) : string :=
  dollar b1 ++ letters ++ dollar b2 ++ digits.

(** The letter that opens a relative-offset token of an axis. *)
Definition axis_letter (colrow : IndexType) : ascii :=
  match colrow with
  | Row => "R"
  | Column => "C"
  end.

Definition starts_with (p : ascii -> bool) (s : string) : bool :=
  match s with
  | String c _ => p c
  | EmptyString => false
  end.

(** The largest index whose name has at most [fuel] letters. *)
Fixpoint column_bound (fuel : nat) : Z :=
  match fuel with
  | O => 0
  | S fuel' => 26 * (column_bound fuel' + 1)
  end.

(** ** Vocabulary of the further properties *)

(** [s.isascii()]: every character is below U+0080. *)
Definition isascii (s : string) : bool :=
  forall_string (fun c => (code c <? 128)%N) s.

(** No character of [s] satisfies [p]. *)
Definition free_of (p : ascii -> bool) (s : string) : bool :=
  forall_string (fun c => negb (p c)) s.

Definition no_digit (s : string) : Prop := free_of (mem Digit) s = true.
Definition no_letter (s : string) : Prop := free_of (mem Letter) s = true.

(** The pattern [r] matches at no position of a text in [P], whatever
    comes after it. *)
Definition fails_on (P : string -> Prop) (r : regex) : Prop :=
  forall i s g k, P s -> run r i s g k = None.

(** A Coordinate with both axes: a row Index and a column Index, each
    with its value. *)
Definition cell (r : Z) (ra : bool) (c : Z) (ca : bool) : Coordinate :=
  mkCoordinate (mkIndex (Some Row) (Some r) ra) (mkIndex (Some Column) (Some c) ca).

(** [index.value is not None]. *)
Definition valued (index : Index) : bool :=
  match value index with
  | Some _ => true
  | None => false
  end.

(** * AL_Excel.Tables: the parts that stand on their own

    [Tables.py] works on openpyxl worksheets and on the [Range] class of
    [AL_Excel.Ranges]; what is embedded here are the computations that
    need neither: the cell addresses and the normalisation of the rows in
    [dicts_to_table], the generation of a table name, the list of columns
    in [EnhancedTable.insertcolumn], and the two scans of [gettablesize]
    over the truth values of the cells. *)

(** ** dicts_to_table *)

(** [start + Coordinate(str(roffset), str(coffset))]: the cell written
    for an offset from [start] (for the headers [roffset] is 0). *)
Definition offset_cell (start : Coordinate) (roffset coffset : Z)
    : result Coordinate :=
  offset <- Coordinate_init (DStr (str_int roffset)) (DStr (str_int coffset)) ;;
  add_Coordinate start offset.

Section DictRows.

(** The values of the cells, and the empty text that [item.get] falls
    back to. *)
Variable V : Type.
Variable blank : V.

(** A dict whose keys are texts, in the order of insertion. *)
Definition dict : Type := list (string * V).

(** [item.keys()]. *)
Definition dict_keys (item : dict) : list string := map fst item.

(** [item.get(key, default)]. *)
Fixpoint dict_get (item : dict) (key : string) (default : V) : V :=
  match item with
  | [] => default
  | (k, v) :: item' => if String.eqb k key then v else dict_get item' key default
  end.

(** [for h in iheaders: if h not in headers: headers.append(h)]. *)
Fixpoint collect_headers (iheaders headers : list string) : list string :=
  match iheaders with
  | [] => headers
  | h :: iheaders' =>
      collect_headers iheaders'
        (if existsb (String.eqb h) headers then headers else headers ++ [h])%list
  end.

(** "Normalize dinput structure" for a list of dicts: the headers (those
    given, or the keys of the items) and one list of values per item. *)
Definition normalize_dicts (dinput : list dict) (headers : option (list string))
    : list string * list (list V) :=
  let headers :=
    match headers with
    | Some headers => headers
    | None => collect_headers (List.concat (map dict_keys dinput)) []
    end in
  (headers,
   map (fun item => map (fun key => dict_get item key blank) headers) dinput).

End DictRows.

Section AutoName.

Variable Table : Type.

(** [get_table_by_name(sheet, tablename)] on the sheet at hand. *)
Variable get_table_by_name : string -> result (option Table).

(** "AutoGenerate Tablename": the loop [while not tablename]; the result
    is [Ok None] while the loop is still running after [fuel] rounds. *)
Fixpoint autogenerate_tablename (fuel : nat) : result (option string) :=
  let i := 1 in
  match fuel with
  | O => Ok None
  | S fuel' =>
      let tablename := "Table" ++ str_int i in
      t <- get_table_by_name tablename ;;
      match t with
      | Some _ => autogenerate_tablename fuel'
      | None => Ok (Some tablename)
      end
  end.

End AutoName.

(** ** EnhancedTable.insertcolumn *)

(** [TableColumn(id=..., name=...)]. *)
Record TableColumn : Type := mkTableColumn {
  column_id : Z;
  column_name : string
}.

(** [l.insert(index, x)]: a negative index counts from the end, and an
    index beyond either end is brought back to it. *)
Definition list_insert {A : Type} (l : list A) (index : Z) (x : A) : list A :=
  let n := Z.of_nat (List.length l) in
  let i := if index <? 0 then Z.max 0 (index + n) else Z.min index n in
  (firstn (Z.to_nat i) l ++ x :: skipn (Z.to_nat i) l)%list.

Inductive inserted : Type :=
| Columns (tableColumns : list TableColumn)
| IndexOutsideOfTableRange.   (* ValueError("Index outside of Table Range") *)

(** [self.tableColumns] after [insertcolumn(index, columnname)], up to the
    update [self.range += [1,None]] that follows it. *)
Definition insertcolumn (tableColumns : list TableColumn)
    (index : option Z) (columnname : option string) : inserted :=
  let collen := Z.of_nat (List.length tableColumns) in
  let index := match index with None => collen - 1 | Some index => index end in
  if index >=? collen then IndexOutsideOfTableRange
  else
    let columnname :=
      match columnname with
      | None => "Column" ++ str_int collen
      | Some columnname => columnname
      end in
    let columnname :=
      if existsb (String.eqb columnname) (map column_name tableColumns)
      then columnname ++ " 2"
      else columnname in
    Columns (list_insert tableColumns index (mkTableColumn collen columnname)).

(** ** gettablesize *)

Section TableSize.

(** [bool(sheet.cell(row = row, column = column).value)], for rows and
    columns from 1 on. *)
Variable cell_value : Z -> Z -> bool.

(** The loop over the header row: [Some (column, blank)] when it ends,
    [None] while it is still running after [fuel] rounds.  The two greedy
    parameters are counts; [False] is 0. *)
Fixpoint scan_columns (fuel : nat) (greedycolumns row column blank : Z)
    : option (Z * Z) :=
  if (blank =? 0) || (negb (greedycolumns =? 0) && (blank <=? greedycolumns)) then
    match fuel with
    | O => None
    | S fuel' =>
        let column := column + 1 in
        let blank := if cell_value row column then 0 else blank + 1 in
        scan_columns fuel' greedycolumns row column blank
    end
  else Some (column, blank).

(** The inner function [blankrow]: no cell with a value in the columns 1
    to [endcolumn] of [row]. *)
Definition blankrow (endcolumn row : Z) : bool :=
  forallb (fun col => negb (cell_value row (Z.of_nat col)))
    (seq 1 (Z.to_nat endcolumn)).

(** The loop over the rows below the header. *)
Fixpoint scan_rows (fuel : nat) (greedyrows endcolumn row norow : Z)
    : option (Z * Z) :=
  if (norow =? 0) || (negb (greedyrows =? 0) && (norow <=? greedyrows)) then
    match fuel with
    | O => None
    | S fuel' =>
        let row := row + 1 in
        let norow := if blankrow endcolumn row then norow + 1 else 0 in
        scan_rows fuel' greedyrows endcolumn row norow
    end
  else Some (row, norow).

(** [gettablesize] up to its last line: the tuple
    [(startcolumn, startrow, endcolumn, endrow)] handed to
    [tuple_to_range], or [None] where the function returns [None]; the
    outer [None] is for a scan still running after [fuel] rounds. *)
Definition gettablesize (fuel : nat) (startcolumn startrow : Z)
    (greedycolumns greedyrows : Z) : option (option (Z * Z * Z * Z)) :=
  let blank := if cell_value startrow startcolumn then 0 else 1 in
  match scan_columns fuel greedycolumns startrow startcolumn blank with
  | None => None
  | Some (column, blank) =>
      let endcolumn := column - blank in
      if endcolumn <? startcolumn then Some None
      else
        let norow := if blankrow endcolumn 2 then 1 else 0 in
        match scan_rows fuel greedyrows endcolumn 2 norow with
        | None => None
        | Some (row, norow) =>
            let endrow := row - norow in
            Some (Some (startcolumn, startrow, endcolumn, endrow))
        end
  end.

End TableSize.

(** The sheet of the docstring of [gettablesize]: a header W X Y Z in
    row 1 and values in the three rows below it. *)
Definition docstring_sheet (row column : Z) : bool :=
  existsb (fun rc => (fst rc =? row) && (snd rc =? column))
    [ (1, 1); (1, 2); (1, 3); (1, 4);
      (2, 1); (2, 2); (2, 3);
      (3, 2); (3, 4);
      (4, 1) ].

(** * Properties *)

(** ** Proof automation *)

(** Case analysis on the eight bits of a character. *)
Ltac by_ascii c :=
  destruct c as [[] [] [] [] [] [] [] []]; vm_compute; intros;
  try reflexivity; try discriminate.

(** Evaluate the tests of the matcher on known characters. *)
Ltac ieq_ground :=
  repeat match goal with
  | |- context [ieq ?a ?b] =>
      let v := eval vm_compute in (ieq a b) in
      match v with
      | true => change (ieq a b) with true
      | false => change (ieq a b) with false
      end
  | |- context [mem ?a ?b] =>
      let v := eval vm_compute in (mem a b) in
      match v with
      | true => change (mem a b) with true
      | false => change (mem a b) with false
      end
  end.

(** Unfold the matcher along a pattern, deciding each test on a character
    from the hypotheses. *)
Ltac regex_simpl :=
  cbn [run cat append]; cbn beta iota;
  repeat (ieq_ground; cbn beta iota;
          repeat match goal with
          | H : ieq _ _ = _ |- _ => rewrite !H
          | H : mem _ _ = _ |- _ => rewrite !H
          end; cbn beta iota).

(** ** Text *)

Lemma append_assoc (a b c : string) : (a ++ b) ++ c = a ++ b ++ c.
Proof.
  induction a as [| x a IH]; simpl; [reflexivity | rewrite IH; reflexivity].
Qed.

Lemma append_nil_r (a : string) : a ++ EmptyString = a.
Proof.
  induction a as [| x a IH]; simpl; [reflexivity | rewrite IH; reflexivity].
Qed.

Lemma forall_string_impl (p q : ascii -> bool) (s : string) :
  (forall c, p c = true -> q c = true) ->
  forall_string p s = true -> forall_string q s = true.
Proof.
  intro Hpq. induction s as [| c s IH]; cbn [forall_string]; [reflexivity |].
  intro H. apply andb_prop in H as [Hc Hs].
  rewrite (Hpq c Hc), (IH Hs). reflexivity.
Qed.

(** ** Decimal text: [str] of an integer and [int] of its digits *)

Lemma string_of_uint_digits (d : Decimal.uint) :
  forall_string isdigit (NilEmpty.string_of_uint d) = true.
Proof. induction d; simpl; auto. Qed.

Lemma string_of_uint_nonempty (d : Decimal.uint) :
  d <> Decimal.Nil -> NilEmpty.string_of_uint d <> EmptyString.
Proof. destruct d; simpl; congruence. Qed.

Lemma uint_of_digits (ds : string) :
  forall_string isdigit ds = true ->
  exists d, NilEmpty.uint_of_string ds = Some d.
Proof.
  induction ds as [| c ds IH]; simpl; intro H.
  - eexists; reflexivity.
  - apply andb_prop in H as [Hc Hds].
    destruct (IH Hds) as [d ->].
    revert Hc. by_ascii c; eexists; reflexivity.
Qed.

Lemma int_str_digits (sgn : bool) (ds : string) :
  ds <> EmptyString ->
  forall_string isdigit ds = true ->
  exists n, int_str (minus sgn ++ ds) = Some n.
Proof.
  intros Hne Hds. destruct ds as [| c ds]; [congruence |].
  destruct (uint_of_digits _ Hds) as [d Hd].
  unfold int_str, NilZero.int_of_string.
  destruct sgn; simpl minus; simpl append.
  - change (Ascii.eqb "-" "-") with true. cbv iota.
    unfold NilZero.uint_of_string. rewrite Hd. eexists; reflexivity.
  - simpl in Hds. apply andb_prop in Hds as [Hc _].
    assert (Hm : Ascii.eqb c "-" = false) by (revert Hc; by_ascii c).
    rewrite Hm. unfold NilZero.uint_of_string. rewrite Hd. eexists; reflexivity.
Qed.

Lemma str_int_digits (n : Z) :
  exists ds,
    str_int n = minus (n <? 0) ++ ds
    /\ ds <> EmptyString /\ forall_string isdigit ds = true.
Proof.
  unfold str_int. destruct n as [| p | p]; simpl.
  - exists "0". repeat split; discriminate.
  - exists (NilEmpty.string_of_uint (Pos.to_uint p)).
    pose proof (DecimalPos.Unsigned.to_uint_nonnil p) as Hp.
    repeat split.
    + unfold NilZero.string_of_uint. destruct (Pos.to_uint p); congruence.
    + apply string_of_uint_nonempty, Hp.
    + apply string_of_uint_digits.
  - exists (NilEmpty.string_of_uint (Pos.to_uint p)).
    pose proof (DecimalPos.Unsigned.to_uint_nonnil p) as Hp.
    repeat split.
    + unfold NilZero.string_of_uint. destruct (Pos.to_uint p); congruence.
    + apply string_of_uint_nonempty, Hp.
    + apply string_of_uint_digits.
Qed.

Lemma int_str_str_int (n : Z) : int_str (str_int n) = Some n.
Proof.
  unfold int_str, str_int.
  rewrite NilZero.isi.
  - simpl. rewrite DecimalZ.of_to. reflexivity.
  - destruct n; simpl; try discriminate.
    intro H. injection H as H. exact (DecimalPos.Unsigned.to_uint_nonnil _ H).
  - destruct n; simpl; try discriminate.
    intro H. injection H as H. exact (DecimalPos.Unsigned.to_uint_nonnil _ H).
Qed.

Lemma str_int_nonneg (r : Z) :
  0 <= r ->
  exists d ds,
    str_int r = String d ds
    /\ isdigit d = true /\ forall_string isdigit ds = true
    /\ int_str (String d ds) = Some r.
Proof.
  intro Hr. destruct (str_int_digits r) as (s & E & Hne & Hs).
  replace (r <? 0) with false in E by (symmetry; apply Z.ltb_ge; exact Hr).
  cbn [minus append] in E.
  destruct s as [| d ds]; [congruence |].
  cbn [forall_string] in Hs. apply andb_prop in Hs as [Hd Hds].
  exists d, ds. repeat split; try assumption.
  rewrite <- E. apply int_str_str_int.
Qed.

(** ** Characters: what the patterns can tell apart *)

Lemma digit_facts c :
  isdigit c = true ->
  mem Letter c = false
  /\ ieq "R" c = false /\ ieq "C" c = false /\ ieq "$" c = false
  /\ ieq "[" c = false /\ ieq "]" c = false /\ ieq "-" c = false.
Proof. by_ascii c; repeat split. Qed.

Lemma upper_facts c :
  isupper c = true ->
  mem Letter c = true /\ mem Digit c = false
  /\ ieq "$" c = false /\ ieq "[" c = false /\ ieq "-" c = false.
Proof. by_ascii c; repeat split. Qed.

Lemma upper_is_letter c : isupper c = true -> mem Letter c = true.
Proof. intro H. apply (upper_facts c H). Qed.

Ltac digit_char d H :=
  let F := fresh "F" in
  pose proof (digit_facts d H) as F;
  destruct F as (?F & ?F & ?F & ?F & ?F & ?F & ?F).

Ltac upper_char c H :=
  let F := fresh "F" in
  pose proof (upper_facts c H) as F;
  destruct F as (?F & ?F & ?F & ?F & ?F).

(** ** The greedy repetition *)

(** A run of [p]-characters followed by something else is taken whole,
    provided the continuation accepts what follows. *)
Lemma plus_greedy (p : ascii -> bool) (ds : string) :
  forall k i rest r,
    ds <> EmptyString ->
    forall_string p ds = true ->
    starts_with p rest = false ->
    k (i + String.length ds)%nat ds rest = Some r ->
    plus p k i (ds ++ rest) = Some r.
Proof.
  induction ds as [| c ds IH]; intros k i rest r Hne Hall Hrest Hk.
  - congruence.
  - simpl in Hall. apply andb_prop in Hall as [Hc Hds].
    simpl. rewrite Hc.
    destruct ds as [| c' ds'].
    + simpl. simpl in Hk. rewrite Nat.add_1_r in Hk.
      destruct rest as [| x rest']; simpl in *.
      * exact Hk.
      * rewrite Hrest. exact Hk.
    + rewrite (IH (fun i' m s'' => k i' (String c m) s'') (S i) rest r);
        [reflexivity | discriminate | exact Hds | exact Hrest |].
      simpl in *. rewrite Nat.add_succ_r in Hk. exact Hk.
Qed.

Lemma plus_greedy_cons (p : ascii -> bool) (c : ascii) (ds : string) :
  forall k i rest r,
    p c = true ->
    forall_string p ds = true ->
    starts_with p rest = false ->
    k (S i + String.length ds)%nat (String c ds) rest = Some r ->
    plus p k i (String c (ds ++ rest)) = Some r.
Proof.
  intros k i rest r Hc Hds Hrest Hk.
  change (String c (ds ++ rest)) with (String c ds ++ rest).
  apply plus_greedy; try assumption.
  - discriminate.
  - simpl. rewrite Hc, Hds. reflexivity.
  - simpl String.length. rewrite Nat.add_succ_r. exact Hk.
Qed.

Lemma plus_greedy_end (p : ascii -> bool) (c : ascii) (ds : string) :
  forall k i r,
    p c = true ->
    forall_string p ds = true ->
    k (S i + String.length ds)%nat (String c ds) EmptyString = Some r ->
    plus p k i (String c ds) = Some r.
Proof.
  intros k i r Hc Hds Hk.
  rewrite <- (append_nil_r ds) at 1.
  apply plus_greedy_cons; try assumption. reflexivity.
Qed.

(** No backtracking helps when the continuation rejects every tail. *)
Lemma plus_none (p : ascii -> bool) (s : string) :
  forall k i,
    (forall j m t, forall_string p t = true -> k j m t = None) ->
    forall_string p s = true ->
    plus p k i s = None.
Proof.
  induction s as [| c s IH]; intros k i Hk Hall.
  - reflexivity.
  - simpl in Hall. apply andb_prop in Hall as [Hc Hs].
    simpl. rewrite Hc.
    rewrite IH; [| intros; apply Hk; assumption | exact Hs].
    apply Hk. exact Hs.
Qed.

Lemma plus_miss (p : ascii -> bool) k i c s :
  p c = false -> plus p k i (String c s) = None.
Proof. intro H. simpl. rewrite H. reflexivity. Qed.

Ltac plus_fail :=
  repeat match goal with
  | |- context [plus ?p ?k ?i (String ?c ?s)] =>
      rewrite (plus_miss p k i c s) by (first [assumption | reflexivity])
  | |- context [plus ?p ?k ?i EmptyString] =>
      change (plus p k i EmptyString) with (@None groups)
  end.

Lemma search_match_at (r : regex) (s : string) (m : groups) :
  match_at r 0 s = Some m -> search r s = Some m.
Proof.
  intro H. unfold search. destruct s; simpl; rewrite H; reflexivity.
Qed.

(** ** Relative-offset tokens: R or C, an integer, brackets or not *)

Section AxisToken.

Variables (ob sgn cb : bool) (d : ascii) (ds : string).
Hypothesis d_digit : isdigit d = true.
Hypothesis ds_digits : forall_string isdigit ds = true.

Lemma ROWRE_token (l : ascii) :
  ieq "R" l = true ->
  match_at ROWRE 0 (axis_token l ob sgn cb (String d ds))
  = Some [ ("match", axis_token l ob sgn cb (String d ds));
           ("absolute2", bracket_close cb);
           ("RCrow", minus sgn ++ String d ds);
           ("absolute1", bracket_open ob) ].
Proof.
  intros Hl. digit_char d d_digit.
  destruct ob, sgn, cb;
    unfold axis_token, match_at, ROWRE, bracket_open, bracket_close, minus.
  all: regex_simpl.
  all: erewrite plus_greedy_cons;
    [reflexivity | exact d_digit | exact ds_digits | reflexivity |].
  all: regex_simpl; reflexivity.
Qed.

Lemma COLUMNRE_token (l : ascii) :
  ieq "C" l = true ->
  match_at COLUMNRE 0 (axis_token l ob sgn cb (String d ds))
  = Some [ ("match", axis_token l ob sgn cb (String d ds));
           ("absolute2", bracket_close cb);
           ("RCcolumn", minus sgn ++ String d ds);
           ("absolute1", bracket_open ob) ].
Proof.
  intros Hl. digit_char d d_digit.
  destruct ob, sgn, cb;
    unfold axis_token, match_at, COLUMNRE, bracket_open, bracket_close, minus.
  all: regex_simpl.
  all: erewrite plus_greedy_cons;
    [reflexivity | exact d_digit | exact ds_digits | reflexivity |].
  all: regex_simpl; reflexivity.
Qed.

Lemma parsecoordregex_token (colrow : IndexType) (l : ascii) (n : Z) :
  ieq (axis_letter colrow) l = true ->
  int_str (minus sgn ++ String d ds) = Some n ->
  parsecoordregex (axis_token l ob sgn cb (String d ds)) colrow
  = if Bool.eqb ob cb
    then Ok (mkIndex (Some colrow) (Some n) (ob && cb))
    else Raise SyntaxError (IncompleteMissing (if ob then "]" else "["))%char.
Proof.
  intros Hl Hn. unfold parsecoordregex.
  destruct colrow; simpl in Hl.
  - rewrite (search_match_at _ _ _ (ROWRE_token l Hl)).
    cbn [type_name append group String.eqb Ascii.eqb Bool.eqb truthy].
    cbv iota. unfold int. rewrite Hn.
    destruct ob, cb; reflexivity.
  - rewrite (search_match_at _ _ _ (COLUMNRE_token l Hl)).
    cbn [type_name append group String.eqb Ascii.eqb Bool.eqb truthy].
    cbv iota. unfold int. rewrite Hn.
    destruct ob, cb; reflexivity.
Qed.

End AxisToken.

(** ** Letter-digit text: letters, digits, a dollar sign before either *)

Section LetterDigitText.

Variables (b1 b2 : bool) (l : ascii) (ls : string) (d : ascii) (ds : string).
Hypothesis l_upper : isupper l = true.
Hypothesis ls_upper : forall_string isupper ls = true.
Hypothesis d_digit : isdigit d = true.
Hypothesis ds_digits : forall_string isdigit ds = true.

#[local] Abbreviation column_text := (dollar b1 ++ String l ls).
#[local] Abbreviation row_text := (dollar b2 ++ String d ds).
#[local] Abbreviation text := (letter_digit_text b1 (String l ls) b2 (String d ds)).

Lemma ls_letters : forall_string (mem Letter) ls = true.
Proof.
  apply (forall_string_impl isupper); [apply upper_is_letter | exact ls_upper].
Qed.

Lemma ROWRE_A1 :
  match_at ROWRE 0 row_text
  = Some [ ("match", row_text); ("A1row", String d ds);
           ("absolute", dollar b2) ].
Proof.
  digit_char d d_digit.
  destruct b2; unfold match_at, ROWRE, dollar; regex_simpl.
  all: erewrite plus_greedy_end;
    [reflexivity | exact d_digit | exact ds_digits |].
  all: regex_simpl; reflexivity.
Qed.

Lemma COLUMNRE_A1 :
  match_at COLUMNRE 0 column_text
  = Some [ ("match", column_text); ("A1column", String l ls);
           ("absolute", dollar b1) ].
Proof.
  upper_char l l_upper.
  pose proof ls_letters as Hall. pose proof ls_upper as Hls.
  revert Hall Hls. generalize ls. intros s Hall Hls.
  destruct b1; unfold match_at, COLUMNRE, dollar; regex_simpl.
  - erewrite plus_greedy_end; [reflexivity | assumption | exact Hall |].
    regex_simpl. reflexivity.
  - destruct (ieq "C" l) eqn:HC; cbn iota.
    + (* the relative-offset alternative stops at the character after C *)
      destruct s as [| l2 s2].
      * regex_simpl. plus_fail. cbn iota.
        erewrite plus_greedy_end; [reflexivity | assumption | exact Hall |].
        regex_simpl. reflexivity.
      * cbn [forall_string] in Hls. apply andb_prop in Hls as [Hl2 Hs2].
        upper_char l2 Hl2.
        regex_simpl. plus_fail. cbn iota.
        erewrite plus_greedy_end; [reflexivity | assumption | exact Hall |].
        regex_simpl. reflexivity.
    + erewrite plus_greedy_end; [reflexivity | assumption | exact Hall |].
      regex_simpl. reflexivity.
Qed.

(** The relative-offset alternative of [FULLRE] rejects the text: after an
    R it finds a letter or a dollar sign, or digits up to the end and no C. *)
Lemma FULLRE_RC_no_match (i : nat) (g : groups) k :
  run FULLRE_RC i text g k = None.
Proof.
  upper_char l l_upper. digit_char d d_digit.
  pose proof ls_upper as Hls.
  unfold letter_digit_text. revert Hls. generalize ls. intros s Hls.
  unfold FULLRE_RC, dollar.
  destruct b1; [regex_simpl; reflexivity |].
  destruct (ieq "R" l) eqn:HR; [| regex_simpl; reflexivity].
  destruct s as [| l2 s2].
  - destruct b2.
    + regex_simpl. plus_fail. reflexivity.
    + regex_simpl.
      rewrite plus_none;
        [reflexivity | | apply andb_true_intro; split; assumption].
      intros j m t Ht. destruct t as [| x t].
      * reflexivity.
      * cbn [forall_string] in Ht. apply andb_prop in Ht as [Hx _].
        digit_char x Hx. regex_simpl. reflexivity.
  - cbn [forall_string] in Hls. apply andb_prop in Hls as [Hl2 Hs2].
    upper_char l2 Hl2. regex_simpl. plus_fail. reflexivity.
Qed.

Lemma FULLRE_A1_match (i : nat) (g : groups) k r :
  (forall j,
      k j text EmptyString
        (("A1", text) :: ("A1row", row_text) :: ("A1rowid", String d ds)
         :: ("absoluteA", dollar b2) :: ("A1column", column_text)
         :: ("A1columnid", String l ls) :: ("absoluteB", dollar b1) :: g)
      = Some r) ->
  run FULLRE_A1 i text g k = Some r.
Proof.
  intros Hk. upper_char l l_upper. digit_char d d_digit.
  pose proof ls_letters as Hall.
  unfold letter_digit_text, FULLRE_A1, dollar in *.
  destruct b1, b2; regex_simpl.
  all: erewrite plus_greedy_cons;
    [reflexivity | assumption | exact Hall | first [reflexivity | assumption] |].
  all: regex_simpl.
  all: erewrite plus_greedy_end;
    [reflexivity | exact d_digit | exact ds_digits |].
  all: cbn [append] in Hk; rewrite ?append_nil_r; apply Hk.
Qed.

Lemma FULLRE_letter_digit :
  search FULLRE text
  = Some [ ("match", text); ("A1", text); ("A1row", row_text);
           ("A1rowid", String d ds); ("absoluteA", dollar b2);
           ("A1column", column_text); ("A1columnid", String l ls);
           ("absoluteB", dollar b1) ].
Proof.
  apply search_match_at. unfold match_at, FULLRE.
  cbn [run cat Nat.eqb].
  rewrite FULLRE_RC_no_match.
  erewrite FULLRE_A1_match; [reflexivity |].
  intro j. cbn [append]. reflexivity.
Qed.

Lemma parsecoordregex_A1row (n : Z) :
  int_str (String d ds) = Some n ->
  parsecoordregex row_text Row = Ok (mkIndex (Some Row) (Some n) b2).
Proof.
  intros Hn. unfold parsecoordregex.
  rewrite (search_match_at _ _ _ ROWRE_A1).
  cbn [type_name append group String.eqb Ascii.eqb Bool.eqb truthy].
  cbv iota. unfold int. rewrite Hn. destruct b2; reflexivity.
Qed.

Lemma parsecoordregex_A1column (n : Z) :
  column_index_from_string (String l ls) = Ok n ->
  parsecoordregex column_text Column = Ok (mkIndex (Some Column) (Some n) b1).
Proof.
  intros Hn. unfold parsecoordregex.
  rewrite (search_match_at _ _ _ COLUMNRE_A1).
  cbn [type_name append group String.eqb Ascii.eqb Bool.eqb truthy].
  cbv iota. rewrite Hn. destruct b1; reflexivity.
Qed.

(** The dollar sign before the letters makes the column absolute, the one
    before the digits makes the row absolute. *)
Lemma converttotuple_letter_digit (c r : Z) :
  column_index_from_string (String l ls) = Ok c ->
  int_str (String d ds) = Some r ->
  converttotuple (DStr text)
  = Ok (mkIndex (Some Row) (Some r) b2, mkIndex (Some Column) (Some c) b1).
Proof.
  intros Hc Hr. unfold converttotuple.
  rewrite FULLRE_letter_digit.
  unfold parsecoordgroup.
  cbn [append group String.eqb Ascii.eqb Bool.eqb truthy]. cbv iota.
  rewrite (parsecoordregex_A1row r Hr).
  rewrite (parsecoordregex_A1column c Hc).
  reflexivity.
Qed.

End LetterDigitText.

(** ** The column names *)

Lemma forall_string_append (p : ascii -> bool) (a b : string) :
  forall_string p (a ++ b) = forall_string p a && forall_string p b.
Proof.
  induction a as [| x a IH]; simpl; [reflexivity |].
  rewrite IH. apply andb_assoc.
Qed.

Lemma length_append (a b : string) :
  String.length (a ++ b) = (String.length a + String.length b)%nat.
Proof. induction a as [| x a IH]; simpl; [reflexivity | rewrite IH; reflexivity]. Qed.

Lemma upper_fixed (s : string) : forall_string isupper s = true -> upper s = s.
Proof.
  induction s as [| c s IH]; cbn [forall_string upper map_string]; [reflexivity |].
  intro H. apply andb_prop in H as [Hc Hs].
  fold (upper s). rewrite (IH Hs). f_equal.
  revert Hc. by_ascii c.
Qed.

Lemma letter_code (r : Z) :
  1 <= r <= 26 ->
  isupper (ascii_of_N (Z.to_N (r + 64))) = true
  /\ Z.of_N (code (ascii_of_N (Z.to_N (r + 64)))) - 64 = r.
Proof.
  intro Hr. unfold isupper, code.
  rewrite N_ascii_embedding by lia.
  split; [| lia].
  apply andb_true_intro; split; apply N.leb_le; lia.
Qed.

(** The loop of the collaborator: the letters written for [c] are upper
    case, at most [fuel] of them, and they are read back as [c]. *)
Lemma column_letters_spec (fuel : nat) :
  forall (c : Z) (acc : string),
    0 <= c <= column_bound fuel ->
    exists s,
      column_letters fuel c acc = s ++ acc
      /\ forall_string isupper s = true
      /\ (String.length s <= fuel)%nat
      /\ (0 < c -> s <> EmptyString)
      /\ forall rest, column_number 0 (s ++ rest) = column_number c rest.
Proof.
  induction fuel as [| fuel IH]; intros c acc Hc.
  - cbn [column_bound] in Hc. exists EmptyString.
    refine (conj _ (conj _ (conj _ (conj _ _)))); try reflexivity; try lia.
    intro rest. replace c with 0 by lia. reflexivity.
  - cbn [column_bound] in Hc. cbn [column_letters].
    destruct (c <=? 0) eqn:E0.
    + apply Z.leb_le in E0. exists EmptyString.
      refine (conj _ (conj _ (conj _ (conj _ _)))); try reflexivity; try lia.
      * simpl. lia.
      * intro rest. replace c with 0 by lia. reflexivity.
    + apply Z.leb_gt in E0.
      pose proof (Z.div_mod c 26 ltac:(lia)) as Hdm.
      pose proof (Z.mod_pos_bound c 26 ltac:(lia)) as Hm.
      destruct (c mod 26 =? 0) eqn:Er.
      * apply Z.eqb_eq in Er.
        destruct (IH (c / 26 - 1) (String "Z" acc) ltac:(lia))
          as (s & Es & Hup & Hlen & _ & Hnum).
        exists (s ++ "Z"). refine (conj _ (conj _ (conj _ (conj _ _)))).
        -- rewrite Es, append_assoc. reflexivity.
        -- rewrite forall_string_append, Hup. reflexivity.
        -- rewrite length_append. simpl. lia.
        -- intros _. destruct s; discriminate.
        -- intro rest. rewrite append_assoc. cbn [append].
           rewrite Hnum. cbn [column_number]. f_equal.
           change (Z.of_N (code "Z")) with 90. lia.
      * apply Z.eqb_neq in Er.
        destruct (letter_code (c mod 26) ltac:(lia)) as [Hch Hcode].
        destruct (IH (c / 26)
                    (String (ascii_of_N (Z.to_N (c mod 26 + 64))) acc)
                    ltac:(lia))
          as (s & Es & Hup & Hlen & _ & Hnum).
        exists (s ++ String (ascii_of_N (Z.to_N (c mod 26 + 64))) EmptyString).
        refine (conj _ (conj _ (conj _ (conj _ _)))).
        -- rewrite Es, append_assoc. reflexivity.
        -- rewrite forall_string_append, Hup. cbn [forall_string].
           rewrite Hch. reflexivity.
        -- rewrite length_append. simpl. lia.
        -- intros _. destruct s; discriminate.
        -- intro rest. rewrite append_assoc. cbn [append].
           rewrite Hnum. cbn [column_number]. f_equal. lia.
Qed.

(** Column-letter conversion round trip, on the collaborator's range. *)
Lemma get_column_letter_name (c : Z) :
  1 <= c <= 18278 ->
  exists l ls,
    get_column_letter c = Ok (String l ls)
    /\ isupper l = true /\ forall_string isupper ls = true
    /\ column_index_from_string (String l ls) = Ok c.
Proof.
  intro Hc. unfold get_column_letter.
  replace ((1 <=? c) && (c <=? 18278)) with true
    by (symmetry; apply andb_true_intro; split; apply Z.leb_le; lia).
  destruct (column_letters_spec 3 c EmptyString) as (s & Es & Hup & Hlen & Hne & Hnum).
  { cbn [column_bound]. lia. }
  rewrite append_nil_r in Es. rewrite Es.
  destruct s as [| l ls]; [exfalso; apply Hne; [lia | reflexivity] |].
  exists l, ls.
  pose proof Hup as Hup'. cbn [forall_string] in Hup'.
  apply andb_prop in Hup' as [Hl Hls].
  refine (conj eq_refl (conj Hl (conj Hls _))).
  unfold column_index_from_string. rewrite (upper_fixed _ Hup), Hup.
  replace ((1 <=? String.length (String l ls))%nat) with true
    by (symmetry; apply Nat.leb_le; simpl; lia).
  replace ((String.length (String l ls) <=? 3)%nat) with true
    by (symmetry; apply Nat.leb_le; exact Hlen).
  cbn [andb]. f_equal.
  rewrite <- (append_nil_r (String l ls)), Hnum. reflexivity.
Qed.

(** ** Index normalization of integers and booleans *)

(** C7. For every integer descriptor [n], whatever its sign, [parseindex]
    returns the absolute Index of unknown axis [Index(None, n, True)]. *)
Theorem parseindex_integer_absolute_unknown :
  forall n : Z, parseindex (DInt n) = Ok (mkIndex None (Some n) true).
Proof. intro n. reflexivity. Qed.

(** C9. A boolean descriptor is not read as the integer 1 or 0: it falls
    through every recognized shape and [parseindex] raises the
    ValueError "Coordinate part is not a recognized format"
    (UnsupportedDescriptor), also as the first element of a sequence. *)
Theorem parseindex_boolean_unrecognized :
  forall b : bool,
    parseindex (DBool b) = Raise ValueError NotRecognizedFormat
    /\ parseindex (DBool b) <> parseindex (DInt (if b then 1 else 0))
    /\ parseindex (DTuple [DBool b]) = Raise ValueError NotRecognizedFormat
    /\ parseindex (DList [DBool b]) = Raise ValueError NotRecognizedFormat.
Proof.
  intro b. repeat split; try reflexivity.
  simpl. discriminate.
Qed.

(** ** Single-axis descriptors *)

(** C8. Parsing the pair [(None, 5)] succeeds with column value 5 and an
    absent row value, and parsing [(5, None)] succeeds with row value 5 and
    an absent column value: the present component stays in the slot of its
    position.  It is not tagged by that position, though: its type is
    still [None], where the claim has Column for position 1 and Row for
    position 0, and where the source announces "type is determined by
    position in the tuple".  The same holds for every integer in place of
    5, through [Coordinate] and through [converttotuple]. *)
Theorem single_axis_pair_untagged :
  forall n : Z,
    (exists c, Coordinate_init DNone (DInt n) = Ok c
               /\ row c = None /\ column c = Some n
               /\ type (_column c) = None)
    /\ (exists c, Coordinate_init (DInt n) DNone = Ok c
                  /\ row c = Some n /\ column c = None
                  /\ type (_row c) = None)
    /\ (exists rc, converttotuple (DTuple [DNone; DInt n]) = Ok rc
                   /\ value (fst rc) = None /\ value (snd rc) = Some n
                   /\ type (snd rc) = None)
    /\ (exists rc, converttotuple (DTuple [DInt n; DNone]) = Ok rc
                   /\ value (fst rc) = Some n /\ value (snd rc) = None
                   /\ type (fst rc) = None).
Proof.
  intro n.
  split; [| split; [| split]]; eexists;
    (split; [reflexivity | split; [| split]]; reflexivity).
Qed.

(** C3. [Coordinate(None, 5)] is constructed, and the Index in its column
    slot keeps the type [None]: the retagged [goodindex] of
    [converttotuple] is never stored back into [indices], against the
    comment "Output will be (NoneRow, column) or (row, NoneColumn)".  The
    same holds for every integer in place of 5, on either side. *)
Theorem single_axis_keeps_unknown_type :
  Coordinate_init DNone (DInt 5)
  = Ok (mkCoordinate (mkIndex None None false) (mkIndex None (Some 5) true))
  /\ (forall n : Z,
        Coordinate_init DNone (DInt n)
        = Ok (mkCoordinate (mkIndex None None false) (mkIndex None (Some n) true)))
  /\ (forall n : Z,
        Coordinate_init (DInt n) DNone
        = Ok (mkCoordinate (mkIndex None (Some n) true) (mkIndex None None false))).
Proof. split; [reflexivity | split; intro n; reflexivity]. Qed.

(** ** Two row descriptors *)

(** With the absolute row first, the relative one becomes the column. *)
Lemma disambiguate_rows_first_absolute (v0 v1 : Z) :
  disambiguate (mkIndex (Some Row) (Some v0) true)
               (mkIndex (Some Row) (Some v1) false)
  = Ok (mkIndex (Some Row) (Some v0) true,
        mkIndex (Some Column) (Some v1) false).
Proof. reflexivity. Qed.

(** With the absolute row second, [indices[1]] is overwritten by the
    retagged [indices[0]]: the absolute Index and its value are lost. *)
Lemma disambiguate_rows_second_absolute (v0 v1 : Z) :
  disambiguate (mkIndex (Some Row) (Some v0) false)
               (mkIndex (Some Row) (Some v1) true)
  = Ok (mkIndex (Some Row) (Some v0) false,
        mkIndex (Some Column) (Some v0) false).
Proof. reflexivity. Qed.

(** C2. On the two row descriptors ["1"] and ["$2"] (the absolute one
    second) [converttotuple] returns row 1 and column 1, both relative:
    the value 2 of the absolute Index is not in the result.  So it is for
    every relative row Index followed by an absolute one. *)
Theorem rows_second_absolute_loses_value :
  parseindex (DStr "1") = Ok (mkIndex (Some Row) (Some 1) false)
  /\ parseindex (DStr "$2") = Ok (mkIndex (Some Row) (Some 2) true)
  /\ converttotuple (DTuple [DStr "1"; DStr "$2"])
     = Ok (mkIndex (Some Row) (Some 1) false,
           mkIndex (Some Column) (Some 1) false)
  /\ (forall v0 v1 : Z,
        converttotuple
          (DTuple [DIndex (mkIndex (Some Row) (Some v0) false);
                   DIndex (mkIndex (Some Row) (Some v1) true)])
        = Ok (mkIndex (Some Row) (Some v0) false,
              mkIndex (Some Column) (Some v0) false)).
Proof.
  split; [reflexivity | split; [reflexivity | split; [reflexivity |]]].
  intros v0 v1. reflexivity.
Qed.

(** ** Addition of indices *)

(** C5, as amended. For two Index values that both carry an integer:
    two absolute operands raise the AttributeError "Cannot add two
    Absolute Indices" (DoubleAbsolute), whatever their axes; otherwise
    different axes raise the TypeError "Type mismatch between Indices"
    (AxisMismatch); otherwise the sum of the values is taken, the result is
    absolute exactly when one operand is, an absolute sum that is not
    positive raises the ValueError "Absolute Reference reduced below 0"
    (InvalidAbsoluteResult), and every other sum is returned. *)
Theorem addindices_rule :
  forall (index1 index2 : Index) (v1 v2 : Z),
    value index1 = Some v1 ->
    value index2 = Some v2 ->
    (absolute index1 = true /\ absolute index2 = true ->
       addindices index1 index2 = Raise AttributeError CannotAddTwoAbsoluteIndices)
    /\ (absolute index1 && absolute index2 = false ->
        type index1 <> type index2 ->
        addindices index1 index2 = Raise TypeError TypeMismatch)
    /\ (absolute index1 && absolute index2 = false ->
        type index1 = type index2 ->
        let result :=
          mkIndex (type index1) (Some (v1 + v2))
                  (absolute index1 || absolute index2) in
        (absolute result = true /\ v1 + v2 <= 0 ->
           addindices index1 index2 = Raise ValueError ReducedBelowZero)
        /\ (absolute result = false \/ 0 < v1 + v2 ->
            addindices index1 index2 = Ok result)).
Proof.
  intros [t1 o1 a1] [t2 o2 a2] v1 v2 H1 H2; simpl in *; subst o1 o2.
  unfold addindices; simpl.
  split; [| split].
  - intros [-> ->]. reflexivity.
  - intros Ha Ht. rewrite Ha.
    destruct t1 as [[]|], t2 as [[]|]; simpl; try reflexivity; congruence.
  - intros Ha <-. rewrite Ha.
    assert (Ht : type_eqb t1 t1 = true) by (destruct t1 as [[]|]; reflexivity).
    rewrite Ht; simpl.
    destruct a1, a2; simpl in *; try discriminate;
      rewrite ?(Z.add_comm v2 v1);
      (split;
       [ intros [Hr Hs]; try discriminate;
         apply Z.leb_le in Hs; rewrite Hs; reflexivity
       | intros [Hr | Hs]; try discriminate; try reflexivity;
         apply Z.leb_gt in Hs; rewrite Hs; reflexivity ]).
Qed.

Lemma addindices_rule_witness :
  value (mkIndex (Some Row) (Some 3) true) = Some 3
  /\ value (mkIndex (Some Row) (Some (-1)) false) = Some (-1)
  /\ addindices (mkIndex (Some Row) (Some 3) true)
                (mkIndex (Some Row) (Some (-1)) false)
     = Ok (mkIndex (Some Row) (Some 2) true).
Proof.
  split; [reflexivity | split; [reflexivity |]].
  apply (addindices_rule (mkIndex (Some Row) (Some 3) true)
           (mkIndex (Some Row) (Some (-1)) false) 3 (-1) eq_refl eq_refl).
  - reflexivity.
  - reflexivity.
  - right. simpl. lia.
Defined.

(** C5, as stated, fails twice: two absolute indices of different axes
    raise DoubleAbsolute, not AxisMismatch; and two relative indices of one
    axis, one of them without a value, are not added: [None + 1] raises
    the interpreter's TypeError. *)
Lemma addindices_counterexample :
  type (mkIndex (Some Row) (Some 1) true) <> type (mkIndex (Some Column) (Some 1) true)
  /\ addindices (mkIndex (Some Row) (Some 1) true) (mkIndex (Some Column) (Some 1) true)
     = Raise AttributeError CannotAddTwoAbsoluteIndices
  /\ addindices (mkIndex (Some Row) (Some 1) true) (mkIndex (Some Column) (Some 1) true)
     <> Raise TypeError TypeMismatch
  /\ type (mkIndex (Some Row) None false) = type (mkIndex (Some Row) (Some 1) false)
  /\ absolute (mkIndex (Some Row) None false) = false
  /\ absolute (mkIndex (Some Row) (Some 1) false) = false
  /\ addindices (mkIndex (Some Row) None false) (mkIndex (Some Row) (Some 1) false)
     = Raise TypeError UnsupportedOperand.
Proof.
  repeat split; try reflexivity; simpl; discriminate.
Qed.

(** ** Addition of a raw descriptor *)

(** C4, as amended. [self + other] with a raw descriptor first builds
    [Coordinate(other)] and then adds the two Coordinates; whenever the
    construction or that addition raises, the exception is swallowed by
    the bare [except: pass] and the method returns [None]: it never
    raises. *)
Theorem add_descriptor_returns_None_on_failure :
  forall (self : Coordinate) (other : descriptor),
    add self (ODescriptor other)
    = match Coordinate_init other no_column with
      | Raise _ _ => Ok None
      | Ok other' =>
          match add self (OCoordinate other') with
          | Raise _ _ => Ok None
          | Ok sum => Ok sum
          end
      end.
Proof.
  intros self other. unfold add.
  destruct (Coordinate_init other no_column) as [c | cls msg]; simpl.
  - destruct (add_Coordinate self c); reflexivity.
  - reflexivity.
Qed.

(** C4, as stated, fails: [Coordinate(True)] raises, and adding [True] to
    the Coordinate of ["A1"] returns [None], which is neither an error nor
    a Coordinate. *)
Lemma add_descriptor_counterexample :
  Coordinate_init (DBool true) no_column
  = Raise AttributeError InvalidValuesForCoordinate
  /\ forall self, add self (ODescriptor (DBool true)) = Ok None.
Proof. split; [reflexivity | intro self; reflexivity]. Qed.

(** ** Non-positive integers *)

Lemma parsecoordregex_never_below_zero (s : string) (colrow : IndexType) cls :
  parsecoordregex s colrow <> Raise cls ReducedBelowZero.
Proof.
  unfold parsecoordregex.
  destruct (search _ s) as [m|]; [| discriminate].
  destruct (truthy (group m _)).
  - destruct colrow.
    + unfold int. destruct (group m "A1row") as [t|]; [| discriminate].
      destruct (int_str t); discriminate.
    + destruct (group m "A1column") as [t|]; [| discriminate].
      unfold column_index_from_string.
      destruct (_ && _); discriminate.
  - destruct (negb _); [discriminate |].
    unfold int. destruct (group m _) as [t|]; [| discriminate].
    destruct (int_str t); discriminate.
Qed.

Lemma parseindex_never_below_zero :
  forall (d : descriptor) cls, parseindex d <> Raise cls ReducedBelowZero.
Proof.
  fix IH 1.
  assert (Hseq : forall (v0 : descriptor) rest cls,
             (forall cls', parseindex v0 <> Raise cls' ReducedBelowZero) ->
             (index <- parseindex v0 ;;
              match rest with
              | [] => Ok index
              | value1 :: _ =>
                  absolute' <- absolute_flag value1 ;;
                  if absolute index && negb absolute'
                  then Raise ValueError SecondIndexContradicts
                  else Ok (mkIndex (type index) (value index) absolute')
              end) <> Raise cls ReducedBelowZero).
  { intros v0 rest cls H0.
    destruct (parseindex v0) as [i | c m] eqn:E; simpl.
    - destruct rest as [| v1 ?]; [discriminate |].
      unfold absolute_flag.
      destruct v1; simpl; try discriminate.
      + destruct b; destruct (absolute i); discriminate.
      + destruct (n =? 0); simpl;
          [ destruct (absolute i); discriminate |].
        destruct (n =? 1); simpl; [| discriminate].
        destruct (absolute i); discriminate.
      + destruct (_ || _); simpl; [destruct (absolute i); discriminate |].
        destruct (String.eqb _ _); simpl; [| discriminate].
        destruct (absolute i); discriminate.
    - intro H. injection H as -> ->. exact (H0 _ eq_refl). }
  intros d cls. destruct d; simpl; try discriminate.
  - unfold try_except.
    destruct (parsecoordregex s Column); [discriminate |].
    apply parsecoordregex_never_below_zero.
  - destruct (2 <? _)%nat; [discriminate |].
    destruct l as [| v0 rest]; [discriminate |].
    apply Hseq. intro cls'. apply IH.
  - destruct (2 <? _)%nat; [discriminate |].
    destruct l as [| v0 rest]; [discriminate |].
    apply Hseq. intro cls'. apply IH.
Qed.

Lemma disambiguate_never_below_zero (index0 index1 : Index) cls :
  disambiguate index0 index1 <> Raise cls ReducedBelowZero.
Proof.
  destruct index0 as [[[]|] [v0|] []], index1 as [[[]|] [v1|] []];
    cbv; discriminate.
Qed.

Lemma converttotuple_never_below_zero (d : descriptor) cls :
  converttotuple d <> Raise cls ReducedBelowZero.
Proof.
  assert (Hg : forall m name colrow c,
             parsecoordgroup m name colrow <> Raise c ReducedBelowZero).
  { intros m name colrow c. unfold parsecoordgroup.
    destruct (group m name); [apply parsecoordregex_never_below_zero | discriminate]. }
  assert (Hpair : forall d1 d2,
             (indices0 <- parseindex d1 ;; indices1 <- parseindex d2 ;;
              disambiguate indices0 indices1) <> Raise cls ReducedBelowZero).
  { intros d1 d2.
    destruct (parseindex d1) as [i0|c0 m0] eqn:E0; simpl.
    - destruct (parseindex d2) as [i1|c1 m1] eqn:E1; simpl.
      + apply disambiguate_never_below_zero.
      + intro H. injection H as -> ->.
        exact (parseindex_never_below_zero d2 _ E1).
    - intro H. injection H as -> ->.
      exact (parseindex_never_below_zero d1 _ E0). }
  destruct d; simpl; try discriminate.
  - destruct (search FULLRE s) as [m|]; [| discriminate].
    set (syntax := if truthy (group m "RC") then "RC" else "A1").
    destruct (parsecoordgroup m (syntax ++ "row") Row) as [r|c0 m0] eqn:E0; simpl.
    + destruct (parsecoordgroup m (syntax ++ "column") Column) as [c|c1 m1] eqn:E1;
        simpl; [discriminate |].
      intro H. injection H as -> ->. exact (Hg _ _ _ _ E1).
    + intro H. injection H as -> ->. exact (Hg _ _ _ _ E0).
  - destruct l as [| d1 [| d2 [| ? ?]]]; try discriminate. apply Hpair.
  - destruct l as [| d1 [| d2 [| ? ?]]]; try discriminate. apply Hpair.
Qed.

Lemma Coordinate_init_never_below_zero (r c : descriptor) cls :
  Coordinate_init r c <> Raise cls ReducedBelowZero.
Proof.
  assert (Hwrap : forall d,
             (rc <- try_except (converttotuple d)
                      (Raise AttributeError InvalidValuesForCoordinate) ;;
              Ok (mkCoordinate (fst rc) (snd rc))) <> Raise cls ReducedBelowZero).
  { intro d. destruct (converttotuple d); simpl; discriminate. }
  assert (Hraw : forall d,
             (rc <- converttotuple d ;; Ok (mkCoordinate (fst rc) (snd rc)))
             <> Raise cls ReducedBelowZero).
  { intro d. destruct (converttotuple d) as [rc|c0 m0] eqn:E; simpl; [discriminate |].
    intro H. injection H as -> ->. exact (converttotuple_never_below_zero d _ E). }
  unfold Coordinate_init.
  destruct r; destruct (is_False c); first [apply Hwrap | apply Hraw].
Qed.

(** C10. For every integer [n <= 0], [parseindex] and the constructor of
    [Coordinate] succeed on the bare integer and yield an absolute Index of
    value [n]; neither of them ever raises "Absolute Reference reduced
    below 0" (InvalidAbsoluteResult), which [addindices] raises for an
    absolute sum that is not positive. *)
Theorem nonpositive_integer_accepted :
  forall n : Z,
    n <= 0 ->
    parseindex (DInt n) = Ok (mkIndex None (Some n) true)
    /\ Coordinate_init (DInt n) no_column
       = Ok (mkCoordinate (mkIndex None (Some n) true) (mkIndex None None false))
    /\ Coordinate_init DNone (DInt n)
       = Ok (mkCoordinate (mkIndex None None false) (mkIndex None (Some n) true))
    /\ (forall m : Z,
          Coordinate_init (DInt n) (DInt m)
          = Ok (mkCoordinate (mkIndex (Some Row) (Some n) true)
                             (mkIndex (Some Column) (Some m) true)))
    /\ (forall d cls, parseindex d <> Raise cls ReducedBelowZero)
    /\ (forall r c cls, Coordinate_init r c <> Raise cls ReducedBelowZero)
    /\ (forall t, addindices (mkIndex t (Some n) true) (mkIndex t (Some 0) false)
                  = Raise ValueError ReducedBelowZero).
Proof.
  intros n Hn. repeat split; try reflexivity.
  - apply parseindex_never_below_zero.
  - apply Coordinate_init_never_below_zero.
  - intro t. unfold addindices; simpl.
    assert (Ht : type_eqb t t = true) by (destruct t as [[]|]; reflexivity).
    rewrite Ht; simpl. rewrite Z.add_0_r.
    apply Z.leb_le in Hn. rewrite Hn. reflexivity.
Qed.

Lemma nonpositive_integer_accepted_witness :
  -4 <= 0
  /\ Coordinate_init (DInt (-4)) no_column
     = Ok (mkCoordinate (mkIndex None (Some (-4)) true) (mkIndex None None false)).
Proof.
  split; [lia |].
  apply (nonpositive_integer_accepted (-4)). lia.
Defined.

(** ** Brackets of a relative-offset token *)

(** C6. For every relative-offset token of an axis (the letter R or C in
    either case, an optional opening bracket, an integer, an optional
    closing bracket): with both brackets or with none [parsecoordregex]
    returns the Index of that integer, absolute exactly when both brackets
    are there; with one bracket only it raises the SyntaxError "Incomplete
    coordinate description: missing ..." (MalformedBracket) naming the
    bracket that is not there.  So ["R[1]C[-2]"] gives two absolute
    indices, ["R1C1"] two relative ones, and ["R[1C1"] raises, naming the
    closing bracket. *)
Theorem relative_offset_brackets :
  (forall (colrow : IndexType) (l : ascii) (ob sgn cb : bool) (ds : string),
      ieq (axis_letter colrow) l = true ->
      ds <> EmptyString ->
      forall_string isdigit ds = true ->
      exists n,
        int_str (minus sgn ++ ds) = Some n
        /\ parsecoordregex (axis_token l ob sgn cb ds) colrow
           = if Bool.eqb ob cb
             then Ok (mkIndex (Some colrow) (Some n) (ob && cb))
             else Raise SyntaxError
                    (IncompleteMissing (if ob then "]" else "["))%char)
  /\ (forall (colrow : IndexType) (n : Z) (ob cb : bool),
         parsecoordregex
           (String (axis_letter colrow)
              (bracket_open ob ++ str_int n ++ bracket_close cb)) colrow
         = if Bool.eqb ob cb
           then Ok (mkIndex (Some colrow) (Some n) (ob && cb))
           else Raise SyntaxError
                  (IncompleteMissing (if ob then "]" else "["))%char)
  /\ Coordinate_init (DStr "R[1]C[-2]") no_column
     = Ok (mkCoordinate (mkIndex (Some Row) (Some 1) true)
                        (mkIndex (Some Column) (Some (-2)) true))
  /\ Coordinate_init (DStr "R1C1") no_column
     = Ok (mkCoordinate (mkIndex (Some Row) (Some 1) false)
                        (mkIndex (Some Column) (Some 1) false))
  /\ Coordinate_init (DStr "R[1C1") no_column
     = Raise SyntaxError (IncompleteMissing "]").
Proof.
  split; [| split; [| repeat split; reflexivity]].
  - intros colrow l ob sgn cb ds Hl Hne Hds.
    destruct (int_str_digits sgn ds Hne Hds) as [n Hn].
    exists n. split; [exact Hn |].
    destruct ds as [| d ds']; [congruence |].
    cbn [forall_string] in Hds. apply andb_prop in Hds as [Hd Hds].
    apply parsecoordregex_token; assumption.
  - intros colrow n ob cb.
    destruct (str_int_digits n) as (ds & E & Hne & Hds).
    rewrite E. rewrite append_assoc.
    destruct ds as [| d ds']; [congruence |].
    cbn [forall_string] in Hds. apply andb_prop in Hds as [Hd Hds].
    apply parsecoordregex_token; try assumption.
    + destruct colrow; reflexivity.
    + rewrite <- E. apply int_str_str_int.
Qed.

Lemma relative_offset_brackets_witness :
  ieq (axis_letter Row) "r" = true
  /\ "007" <> EmptyString
  /\ forall_string isdigit "007" = true
  /\ axis_token "r" true true false "007" = "r[-007"
  /\ parsecoordregex "r[-007" Row = Raise SyntaxError (IncompleteMissing "]").
Proof.
  split; [reflexivity | split; [discriminate | split; [reflexivity |]]].
  split; [reflexivity |].
  destruct (proj1 relative_offset_brackets Row "r"%char true true false "007"
              eq_refl ltac:(discriminate) eq_refl) as (n & _ & H).
  exact H.
Defined.

(** ** Rendering to letter-digit text and parsing it back *)

(** What [toA1string] writes for a cell: [absolute'] is its flag. *)
Lemma toA1string_text (r c : Z) (ra ca : bool) (absolute' : bool) :
  0 <= r ->
  1 <= c <= 18278 ->
  exists l ls d ds,
    toA1string (mkCoordinate (mkIndex (Some Row) (Some r) ra)
                             (mkIndex (Some Column) (Some c) ca)) absolute'
    = Ok (letter_digit_text (absolute' && ra) (String l ls)
                            (absolute' && ca) (String d ds))
    /\ isupper l = true /\ forall_string isupper ls = true
    /\ isdigit d = true /\ forall_string isdigit ds = true
    /\ column_index_from_string (String l ls) = Ok c
    /\ int_str (String d ds) = Some r.
Proof.
  intros Hr Hc.
  destruct (get_column_letter_name c Hc) as (l & ls & El & Hl & Hls & Hcol).
  destruct (str_int_nonneg r Hr) as (d & ds & Ed & Hd & Hds & Hint).
  exists l, ls, d, ds. repeat split; try assumption.
  unfold toA1string, column_letter, str; cbn [_row _column value absolute].
  rewrite El, Ed. destruct absolute'; reflexivity.
Qed.

(** The text of a cell is parsed back to the same values; the flag the
    row was rendered with comes back on the column, and conversely:
    [toA1string] writes the dollar sign of the row before the letters. *)
Lemma toA1string_parse (r c : Z) (ra ca : bool) (absolute' : bool) :
  0 <= r ->
  1 <= c <= 18278 ->
  (text <- toA1string (mkCoordinate (mkIndex (Some Row) (Some r) ra)
                                    (mkIndex (Some Column) (Some c) ca)) absolute' ;;
   Coordinate_init (DStr text) no_column)
  = Ok (mkCoordinate (mkIndex (Some Row) (Some r) (absolute' && ca))
                     (mkIndex (Some Column) (Some c) (absolute' && ra))).
Proof.
  intros Hr Hc.
  destruct (toA1string_text r c ra ca absolute' Hr Hc)
    as (l & ls & d & ds & E & Hl & Hls & Hd & Hds & Hcol & Hint).
  rewrite E. cbn [bind].
  unfold Coordinate_init, no_column. cbn [is_False].
  rewrite (converttotuple_letter_digit _ _ l ls d ds Hl Hls Hd Hds c r)
    by assumption.
  reflexivity.
Qed.

(** C1, as amended. For every Reference with a row value [r >= 0] and a
    column value [c] in 1..18278, tagged Row and Column: the fully
    relative rendering is parsed back to the same values with both flags
    relative; and when the two axes carry the same absolute flag, the
    rendering that honors the flags is parsed back to an equal
    Reference. *)
Theorem toA1string_roundtrip :
  forall (r c : Z) (ra ca : bool),
    0 <= r ->
    1 <= c <= 18278 ->
    let reference :=
      mkCoordinate (mkIndex (Some Row) (Some r) ra)
                   (mkIndex (Some Column) (Some c) ca) in
    (text <- toA1string reference false ;; Coordinate_init (DStr text) no_column)
    = Ok (mkCoordinate (mkIndex (Some Row) (Some r) false)
                       (mkIndex (Some Column) (Some c) false))
    /\ (ra = ca ->
        (text <- toA1string reference true ;; Coordinate_init (DStr text) no_column)
        = Ok reference).
Proof.
  intros r c ra ca Hr Hc reference. split.
  - apply (toA1string_parse r c ra ca false Hr Hc).
  - intros <-. apply (toA1string_parse r c ra ra true Hr Hc).
Qed.

Lemma toA1string_roundtrip_witness :
  0 <= 12
  /\ 1 <= 28 <= 18278
  /\ (text <- toA1string
                (mkCoordinate (mkIndex (Some Row) (Some 12) true)
                              (mkIndex (Some Column) (Some 28) true)) true ;;
      Coordinate_init (DStr text) no_column)
     = Ok (mkCoordinate (mkIndex (Some Row) (Some 12) true)
                        (mkIndex (Some Column) (Some 28) true)).
Proof.
  split; [lia | split; [lia |]].
  apply (toA1string_roundtrip 12 28 true true); [lia | lia | reflexivity].
Defined.

(** C1, as stated, fails on values the letter-digit notation cannot
    write: the Reference of ["R-2C3"] is rendered as ["C-2"], which is not
    parsed back, and the column 0 of ["R1C0"] has no letter. *)
Lemma toA1string_roundtrip_counterexample :
  Coordinate_init (DStr "R-2C3") no_column
  = Ok (mkCoordinate (mkIndex (Some Row) (Some (-2)) false)
                     (mkIndex (Some Column) (Some 3) false))
  /\ (forall absolute',
        toA1string (mkCoordinate (mkIndex (Some Row) (Some (-2)) false)
                                 (mkIndex (Some Column) (Some 3) false)) absolute'
        = Ok "C-2")
  /\ Coordinate_init (DStr "C-2") no_column = Raise TypeError InvalidCoordinates
  /\ Coordinate_init (DStr "R1C0") no_column
     = Ok (mkCoordinate (mkIndex (Some Row) (Some 1) false)
                        (mkIndex (Some Column) (Some 0) false))
  /\ (forall absolute',
        toA1string (mkCoordinate (mkIndex (Some Row) (Some 1) false)
                                 (mkIndex (Some Column) (Some 0) false)) absolute'
        = Raise ValueError InvalidColumnIndex).
Proof.
  repeat split; try reflexivity; intros []; reflexivity.
Qed.

(** The slip behind the restriction of C1 to equal flags: the Reference
    of ["$B3"] (absolute column, relative row) is rendered as ["B$3"]. *)
Lemma toA1string_dollar_on_other_axis :
  Coordinate_init (DStr "$B3") no_column
  = Ok (mkCoordinate (mkIndex (Some Row) (Some 3) false)
                     (mkIndex (Some Column) (Some 2) true))
  /\ toA1string (mkCoordinate (mkIndex (Some Row) (Some 3) false)
                              (mkIndex (Some Column) (Some 2) true)) true
     = Ok "B$3"
  /\ Coordinate_init (DStr "B$3") no_column
     = Ok (mkCoordinate (mkIndex (Some Row) (Some 3) true)
                        (mkIndex (Some Column) (Some 2) false)).
Proof. repeat split; reflexivity. Qed.

(** * Further properties of AL_Excel.Coordinates *)

(** ** Texts on which a pattern cannot match *)

Section Failure.

(** A set of texts closed under dropping the first character. *)
Variable P : string -> Prop.
Hypothesis P_tail : forall c s, P (String c s) -> P s.

Lemma plus_stuck (p : ascii -> bool) (s : string) :
  forall k i,
    P s ->
    (forall j m t, P t -> k j m t = None) ->
    plus p k i s = None.
Proof.
  induction s as [| c s IH]; intros k i Hs Hk; [reflexivity |].
  cbn [plus]. destruct (p c); [| reflexivity].
  rewrite IH; [| exact (P_tail _ _ Hs) | intros; apply Hk; assumption].
  apply Hk. exact (P_tail _ _ Hs).
Qed.

(** Whatever a pattern consumes of a text in [P], a continuation that
    fails on [P] makes the whole match fail. *)
Lemma run_stuck (r : regex) :
  forall i s g k,
    P s ->
    (forall i' m s' g', P s' -> k i' m s' g' = None) ->
    run r i s g k = None.
Proof.
  induction r as [| c | r1 IH1 r2 IH2 | r1 IH1 r2 IH2 | r IH | cs | name r IH | |];
    intros i s g k Hs Hk; cbn [run].
  - apply Hk, Hs.
  - destruct s as [| x s]; [reflexivity |].
    destruct (ieq c x); [| reflexivity]. apply Hk. exact (P_tail _ _ Hs).
  - apply IH1; [exact Hs |]. intros i1 m1 s1 g1 H1.
    apply IH2; [exact H1 |]. intros. apply Hk. assumption.
  - rewrite IH1, IH2 by assumption. reflexivity.
  - rewrite IH by assumption. apply Hk, Hs.
  - apply plus_stuck; [exact Hs |]. intros. apply Hk. assumption.
  - apply IH; [exact Hs |]. intros. apply Hk. assumption.
  - destruct (Nat.eqb i 0); [apply Hk, Hs | reflexivity].
  - destruct s as [| c [| c' s]]; [apply Hk, Hs | | reflexivity].
    destruct (Ascii.eqb c "010"); [apply Hk, Hs | reflexivity].
Qed.

Lemma fails_cat_l r1 r2 : fails_on P r1 -> fails_on P (Cat r1 r2).
Proof. intros H i s g k Hs. cbn [run]. apply H, Hs. Qed.

Lemma fails_cat_r r1 r2 : fails_on P r2 -> fails_on P (Cat r1 r2).
Proof.
  intros H i s g k Hs. cbn [run]. apply run_stuck; [exact Hs |].
  intros i' m s' g' Hs'. apply H, Hs'.
Qed.

Lemma fails_or r1 r2 : fails_on P r1 -> fails_on P r2 -> fails_on P (Or r1 r2).
Proof.
  intros H1 H2 i s g k Hs. cbn [run]. rewrite H1, H2 by exact Hs. reflexivity.
Qed.

Lemma fails_group name r : fails_on P r -> fails_on P (Group name r).
Proof. intros H i s g k Hs. cbn [run]. apply H, Hs. Qed.

Lemma fails_plus cs :
  (forall s, P s -> starts_with (mem cs) s = false) -> fails_on P (Plus cs).
Proof.
  intros H i s g k Hs. cbn [run]. specialize (H s Hs).
  destruct s as [| c s]; [reflexivity |]. cbn [plus starts_with] in *.
  rewrite H. reflexivity.
Qed.

Lemma fails_chr c :
  (forall s, P s -> starts_with (ieq c) s = false) -> fails_on P (Chr c).
Proof.
  intros H i s g k Hs. cbn [run]. specialize (H s Hs).
  destruct s as [| x s]; [reflexivity |]. cbn [starts_with] in H.
  rewrite H. reflexivity.
Qed.

Lemma search_from_none r :
  fails_on P r -> forall s i, P s -> search_from r i s = None.
Proof.
  intros H. induction s as [| c s IH]; intros i Hs; cbn [search_from];
    unfold match_at; rewrite (H _ _ _ _ Hs); [reflexivity |].
  apply IH. exact (P_tail _ _ Hs).
Qed.

Lemma search_none r s : fails_on P r -> P s -> search r s = None.
Proof. intros H Hs. unfold search. apply (search_from_none r H s 0%nat Hs). Qed.

End Failure.

(** A mandatory part of the pattern that cannot start on a text of [P]:
    found by descending through the concatenations, groups and
    alternatives of the pattern. *)
Ltac fails_tac :=
  first [ apply fails_plus; solve [auto]
        | apply fails_chr; solve [auto]
        | apply fails_group; [solve [auto] .. | fails_tac]
        | apply fails_or; [solve [auto] .. | fails_tac | fails_tac]
        | apply fails_cat_l; [solve [auto] .. | fails_tac]
        | apply fails_cat_r; [solve [auto] .. | fails_tac] ].

Lemma free_of_tail p c s : free_of p (String c s) = true -> free_of p s = true.
Proof. unfold free_of. cbn [forall_string]. intro H. apply andb_prop in H. tauto. Qed.

Lemma free_of_head p s : free_of p s = true -> starts_with p s = false.
Proof.
  destruct s as [| c s]; [reflexivity |]. unfold free_of. cbn [forall_string starts_with].
  intro H. apply andb_prop in H as [H _]. apply negb_true_iff in H. exact H.
Qed.

Lemma free_of_append p a b :
  free_of p (a ++ b) = free_of p a && free_of p b.
Proof. apply forall_string_append. Qed.

Lemma no_digit_tail c s : no_digit (String c s) -> no_digit s.
Proof. apply free_of_tail. Qed.

Lemma no_letter_tail c s : no_letter (String c s) -> no_letter s.
Proof. apply free_of_tail. Qed.

Lemma not_letter_not_C c : mem Letter c = false -> ieq "C" c = false /\ ieq "R" c = false.
Proof. by_ascii c; split; reflexivity. Qed.

Lemma no_letter_head_C s : no_letter s -> starts_with (ieq "C") s = false.
Proof.
  intro H. apply free_of_head in H. destruct s as [| c s]; [reflexivity |].
  cbn [starts_with] in *. apply not_letter_not_C, H.
Qed.

Lemma no_letter_head_R s : no_letter s -> starts_with (ieq "R") s = false.
Proof.
  intro H. apply free_of_head in H. destruct s as [| c s]; [reflexivity |].
  cbn [starts_with] in *. apply not_letter_not_C, H.
Qed.

#[local] Hint Resolve free_of_tail free_of_head no_letter_head_C no_letter_head_R : core.
#[local] Hint Unfold no_digit no_letter : core.

Lemma ROWRE_needs_digit : fails_on no_digit ROWRE.
Proof.
  unfold ROWRE. cbn [cat].
  assert (T : forall c s, no_digit (String c s) -> no_digit s) by (intros c s; apply free_of_tail).
  assert (D : forall s, no_digit s -> starts_with (mem Digit) s = false) by (intros s; apply free_of_head).
  fails_tac.
Qed.

Lemma COLUMNRE_needs_letter : fails_on no_letter COLUMNRE.
Proof.
  unfold COLUMNRE. cbn [cat].
  assert (T : forall c s, no_letter (String c s) -> no_letter s) by (intros c s; apply free_of_tail).
  assert (D : forall s, no_letter s -> starts_with (mem Letter) s = false) by (intros s; apply free_of_head).
  fails_tac.
Qed.

Lemma FULLRE_needs_digit : fails_on no_digit FULLRE.
Proof.
  unfold FULLRE, FULLRE_RC, FULLRE_A1. cbn [cat].
  assert (T : forall c s, no_digit (String c s) -> no_digit s) by (intros c s; apply free_of_tail).
  assert (D : forall s, no_digit s -> starts_with (mem Digit) s = false) by (intros s; apply free_of_head).
  fails_tac.
Qed.

Lemma FULLRE_needs_letter : fails_on no_letter FULLRE.
Proof.
  unfold FULLRE, FULLRE_RC, FULLRE_A1. cbn [cat].
  assert (T : forall c s, no_letter (String c s) -> no_letter s) by (intros c s; apply free_of_tail).
  assert (D : forall s, no_letter s -> starts_with (mem Letter) s = false) by (intros s; apply free_of_head).
  fails_tac.
Qed.

Lemma search_COLUMNRE_no_letter s :
  free_of (mem Letter) s = true -> search COLUMNRE s = None.
Proof. apply (search_none no_letter no_letter_tail), COLUMNRE_needs_letter. Qed.

Lemma search_ROWRE_no_digit s :
  free_of (mem Digit) s = true -> search ROWRE s = None.
Proof. apply (search_none no_digit no_digit_tail), ROWRE_needs_digit. Qed.

Lemma search_FULLRE_no_letter s :
  free_of (mem Letter) s = true -> search FULLRE s = None.
Proof. apply (search_none no_letter no_letter_tail), FULLRE_needs_letter. Qed.

Lemma search_FULLRE_no_digit s :
  free_of (mem Digit) s = true -> search FULLRE s = None.
Proof. apply (search_none no_digit no_digit_tail), FULLRE_needs_digit. Qed.

(** ** Texts on which a single-axis pattern does match *)

(** A repetition that can start, before a continuation that accepts
    anything, matches. *)
Lemma plus_some (p : ascii -> bool) (s : string) :
  forall k i c,
    p c = true ->
    (forall j m t, k j m t <> None) ->
    plus p k i (String c s) <> None.
Proof.
  intros k i c Hc Hk. cbn [plus]. rewrite Hc.
  destruct (plus p _ (S i) s); [discriminate | apply Hk].
Qed.

Lemma match_at_COLUMNRE_letter i c s :
  mem Letter c = true -> match_at COLUMNRE i (String c s) <> None.
Proof.
  intro Hc. unfold match_at, COLUMNRE. cbn [run cat].
  assert (Hd : ieq "$" c = false) by (revert Hc; by_ascii c).
  rewrite Hd.
  match goal with |- match ?a with Some _ => _ | None => _ end <> None =>
    destruct a; [discriminate |] end.
  apply plus_some; [exact Hc | discriminate].
Qed.

Lemma match_at_ROWRE_digit i c s :
  mem Digit c = true -> match_at ROWRE i (String c s) <> None.
Proof.
  intro Hc. unfold match_at, ROWRE. cbn [run cat].
  assert (Hd : ieq "$" c = false) by (revert Hc; by_ascii c).
  rewrite Hd.
  match goal with |- match ?a with Some _ => _ | None => _ end <> None =>
    destruct a; [discriminate |] end.
  apply plus_some; [exact Hc | discriminate].
Qed.

Lemma search_from_some (p : ascii -> bool) r :
  (forall i c s, p c = true -> match_at r i (String c s) <> None) ->
  forall s i, free_of p s = false -> search_from r i s <> None.
Proof.
  intros H. induction s as [| c s IH]; intros i Hs; [discriminate |].
  cbn [search_from].
  destruct (match_at r i (String c s)) eqn:E; [discriminate |].
  unfold free_of in Hs. cbn [forall_string] in Hs.
  destruct (p c) eqn:Hc.
  - exfalso. exact (H i c s Hc E).
  - cbn [negb andb] in Hs. apply IH. exact Hs.
Qed.

(** ** parsecoordregex: when no pattern is identified *)

(** X1. For every ASCII text [value] ([value.isascii()]):
    [parsecoordregex(value, "column")] raises the ValueError "String does
    not match any identifiable column patterns" exactly when [value] holds
    no letter, and [parsecoordregex(value, "row")] raises its "row"
    counterpart exactly when [value] holds no digit: the patterns are
    searched for, not anchored, so one letter (one digit) anywhere in the
    text is enough for a match.  Beyond ASCII the interpreter's patterns
    match more (the case-insensitive [A-Z] takes four further characters,
    [\d] every decimal digit of Unicode), and nothing is stated there. *)
Theorem pattern_mismatch_iff :
  forall s : string,
    isascii s = true ->
    (parsecoordregex s Column = Raise ValueError NoIdentifiablePattern
     <-> free_of (mem Letter) s = true)
    /\ (parsecoordregex s Row = Raise ValueError NoIdentifiablePattern
        <-> free_of (mem Digit) s = true).
Proof.
  intros s _. split; split.
  - intro H. destruct (free_of (mem Letter) s) eqn:E; [reflexivity | exfalso].
    pose proof (search_from_some (mem Letter) COLUMNRE match_at_COLUMNRE_letter s 0%nat E) as Hs.
    unfold parsecoordregex in H. fold (search COLUMNRE s) in Hs.
    destruct (search COLUMNRE s) as [m |]; [| congruence].
    destruct (truthy _).
    + destruct (group m "A1column") as [t |]; [| discriminate].
      unfold column_index_from_string in H. destruct (_ && _); discriminate.
    + destruct (negb _); [discriminate |].
      unfold int in H. destruct (group m _) as [t |]; [| discriminate].
      destruct (int_str t); discriminate.
  - intro H. unfold parsecoordregex. rewrite (search_COLUMNRE_no_letter s H). reflexivity.
  - intro H. destruct (free_of (mem Digit) s) eqn:E; [reflexivity | exfalso].
    pose proof (search_from_some (mem Digit) ROWRE match_at_ROWRE_digit s 0%nat E) as Hs.
    unfold parsecoordregex in H. fold (search ROWRE s) in Hs.
    destruct (search ROWRE s) as [m |]; [| congruence].
    destruct (truthy _).
    + unfold int in H. destruct (group m "A1row") as [t |]; [| discriminate].
      destruct (int_str t); discriminate.
    + destruct (negb _); [discriminate |].
      unfold int in H. destruct (group m _) as [t |]; [| discriminate].
      destruct (int_str t); discriminate.
  - intro H. unfold parsecoordregex. rewrite (search_ROWRE_no_digit s H). reflexivity.
Qed.

Lemma pattern_mismatch_iff_witness :
  isascii "$12" = true
  /\ free_of (mem Letter) "$12" = true
  /\ parsecoordregex "$12" Column = Raise ValueError NoIdentifiablePattern.
Proof.
  split; [reflexivity | split; [reflexivity |]].
  apply (proj2 (proj1 (pattern_mismatch_iff "$12" eq_refl))). reflexivity.
Defined.

(** X2. [Coordinate(value)] of a text without a letter, or without a
    digit, raises the TypeError "Invalid coordinates": both notations of
    [FULLRE] need a letter and a digit. *)
Theorem Coordinate_text_needs_letter_and_digit :
  forall s : string,
    free_of (mem Letter) s = true \/ free_of (mem Digit) s = true ->
    Coordinate_init (DStr s) no_column = Raise TypeError InvalidCoordinates.
Proof.
  intros s H.
  assert (Hs : search FULLRE s = None).
  { destruct H as [H | H];
      [apply search_FULLRE_no_letter | apply search_FULLRE_no_digit]; exact H. }
  unfold Coordinate_init, no_column. cbn [is_False converttotuple].
  rewrite Hs. reflexivity.
Qed.

Lemma Coordinate_text_needs_letter_and_digit_witness :
  (free_of (mem Letter) "AB" = true \/ free_of (mem Digit) "AB" = true)
  /\ Coordinate_init (DStr "AB") no_column = Raise TypeError InvalidCoordinates.
Proof.
  split; [right; reflexivity |].
  apply (Coordinate_text_needs_letter_and_digit "AB"). right. reflexivity.
Defined.

(** ** parseindex of a text *)

Lemma digits_no_letter (b : bool) (ds : string) :
  forall_string isdigit ds = true -> free_of (mem Letter) (dollar b ++ ds) = true.
Proof.
  intro H.
  assert (Hd : free_of (mem Letter) ds = true).
  { apply (forall_string_impl isdigit); [| exact H].
    intros c Hc. destruct (digit_facts c Hc) as [-> _]. reflexivity. }
  destruct b; [| exact Hd].
  unfold free_of in *. cbn [dollar append forall_string]. rewrite Hd. reflexivity.
Qed.

Lemma upper_no_digit (s : string) :
  forall_string isupper s = true -> free_of (mem Digit) s = true.
Proof.
  apply forall_string_impl. intros c Hc.
  destruct (upper_facts c Hc) as (_ & -> & _). reflexivity.
Qed.

(** A text of digits is tried as a column, which raises, and then read
    as a row. *)
Lemma parseindex_digits (b : bool) (d : ascii) (ds : string) (n : Z) :
  isdigit d = true ->
  forall_string isdigit ds = true ->
  int_str (String d ds) = Some n ->
  parseindex (DStr (dollar b ++ String d ds)) = Ok (mkIndex (Some Row) (Some n) b).
Proof.
  intros Hd Hds Hn. cbn [parseindex].
  assert (Hc : parsecoordregex (dollar b ++ String d ds) Column
               = Raise ValueError NoIdentifiablePattern).
  { unfold parsecoordregex. rewrite search_COLUMNRE_no_letter; [reflexivity |].
    apply digits_no_letter. cbn [forall_string]. rewrite Hd, Hds. reflexivity. }
  rewrite Hc. cbn [try_except].
  apply parsecoordregex_A1row; assumption.
Qed.

Lemma parseindex_letters (b : bool) (l : ascii) (ls : string) (c : Z) :
  isupper l = true ->
  forall_string isupper ls = true ->
  column_index_from_string (String l ls) = Ok c ->
  parseindex (DStr (dollar b ++ String l ls)) = Ok (mkIndex (Some Column) (Some c) b).
Proof.
  intros Hl Hls Hc. cbn [parseindex].
  rewrite (parsecoordregex_A1column b l ls Hl Hls c Hc). reflexivity.
Qed.

(** X3. [parseindex] of the decimal text of [n >= 0], with a dollar sign
    before it or not, is the row Index of value [n]; [parseindex] of the
    column name of [n] in 1..18278, with a dollar sign or not, is the
    column Index of value [n]; the Index is absolute exactly when the
    dollar sign is there. *)
Theorem parseindex_axis_text :
  forall (b : bool) (n : Z),
    (0 <= n ->
     parseindex (DStr (dollar b ++ str_int n)) = Ok (mkIndex (Some Row) (Some n) b))
    /\ (1 <= n <= 18278 ->
        (letters <- get_column_letter n ;; parseindex (DStr (dollar b ++ letters)))
        = Ok (mkIndex (Some Column) (Some n) b)).
Proof.
  intros b n. split.
  - intro Hn. destruct (str_int_nonneg n Hn) as (d & ds & E & Hd & Hds & Hint).
    rewrite E. apply parseindex_digits; assumption.
  - intro Hn. destruct (get_column_letter_name n Hn) as (l & ls & E & Hl & Hls & Hc).
    rewrite E. cbn [bind]. apply parseindex_letters; assumption.
Qed.

Lemma parseindex_axis_text_witness :
  0 <= 42 /\ parseindex (DStr "$42") = Ok (mkIndex (Some Row) (Some 42) true).
Proof.
  split; [lia |]. apply (proj1 (parseindex_axis_text true 42)). lia.
Defined.

Lemma ieq_R_cases l : ieq "R" l = true -> l = "R"%char \/ l = "r"%char.
Proof. by_ascii l; auto. Qed.

Lemma ieq_C_cases l : ieq "C" l = true -> l = "C"%char \/ l = "c"%char.
Proof. by_ascii l; auto. Qed.

Lemma plus_single (p : ascii -> bool) k i c rest r :
  p c = true ->
  starts_with p rest = false ->
  k (S i) (String c EmptyString) rest = Some r ->
  plus p k i (String c rest) = Some r.
Proof.
  intros Hc Hrest Hk.
  apply (plus_greedy_cons p c EmptyString k i rest r Hc eq_refl Hrest).
  cbn [String.length]. rewrite Nat.add_0_r. exact Hk.
Qed.

Lemma str_int_abs (n : Z) : str_int n = minus (n <? 0) ++ str_int (Z.abs n).
Proof. destruct n; reflexivity. Qed.

Section RowTokenAsDescriptor.

Variables (ob sgn cb : bool) (d : ascii) (ds : string).
Hypothesis d_digit : isdigit d = true.
Hypothesis ds_digits : forall_string isdigit ds = true.

(** On a row token [COLUMNRE] matches the letter R alone, as a column
    name. *)
Lemma COLUMNRE_row_token (l : ascii) :
  l = "R"%char \/ l = "r"%char ->
  match_at COLUMNRE 0 (axis_token l ob sgn cb (String d ds))
  = Some [ ("match", String l EmptyString); ("A1column", String l EmptyString);
           ("absolute", EmptyString) ].
Proof.
  intros Hl. digit_char d d_digit.
  destruct Hl as [-> | ->];
    destruct ob, sgn;
    unfold axis_token, match_at, COLUMNRE, bracket_open, minus; regex_simpl.
  all: erewrite plus_single; [reflexivity | reflexivity | first [reflexivity | assumption] |].
  all: reflexivity.
Qed.

Lemma parseindex_row_token (l : ascii) :
  ieq "R" l = true ->
  parseindex (DStr (axis_token l ob sgn cb (String d ds)))
  = Ok (mkIndex (Some Column) (Some 18) false).
Proof.
  intro Hl. apply ieq_R_cases in Hl.
  cbn [parseindex]. unfold parsecoordregex.
  rewrite (search_match_at _ _ _ (COLUMNRE_row_token l Hl)).
  destruct Hl as [-> | ->]; reflexivity.
Qed.

End RowTokenAsDescriptor.

Section ColumnTokenAsDescriptor.

Variables (d : ascii) (ds : string).
Hypothesis d_digit : isdigit d = true.
Hypothesis ds_digits : forall_string isdigit ds = true.

Lemma ROWRE_skip (i : nat) (c : ascii) (s : string) :
  ieq "R" c = false -> ieq "$" c = false -> mem Digit c = false ->
  match_at ROWRE i (String c s) = None.
Proof.
  intros H1 H2 H3. unfold match_at, ROWRE. regex_simpl. plus_fail. reflexivity.
Qed.

Lemma ROWRE_digits_at (i : nat) (rest : string) :
  starts_with (mem Digit) rest = false ->
  match_at ROWRE i (String d (ds ++ rest))
  = Some [ ("match", String d ds); ("A1row", String d ds);
           ("absolute", EmptyString) ].
Proof.
  intro Hrest. digit_char d d_digit.
  unfold match_at, ROWRE. regex_simpl.
  erewrite plus_greedy_cons;
    [reflexivity | exact d_digit | exact ds_digits | exact Hrest |].
  reflexivity.
Qed.

(** On a column token [ROWRE] finds the digits, without their sign. *)
Lemma search_ROWRE_column_token (l : ascii) (ob sgn cb : bool) :
  l = "C"%char \/ l = "c"%char ->
  search ROWRE (axis_token l ob sgn cb (String d ds))
  = Some [ ("match", String d ds); ("A1row", String d ds);
           ("absolute", EmptyString) ].
Proof.
  intros Hl. unfold search, axis_token, bracket_open, minus, bracket_close.
  assert (Hrest : starts_with (mem Digit) (if cb then "]" else EmptyString) = false)
    by (destruct cb; reflexivity).
  destruct Hl as [-> | ->]; destruct ob, sgn; cbn [append search_from];
    rewrite ?ROWRE_skip by reflexivity;
    rewrite (ROWRE_digits_at _ _ Hrest); reflexivity.
Qed.

Lemma parseindex_column_token (l : ascii) (ob sgn cb : bool) (n m : Z) :
  ieq "C" l = true ->
  int_str (minus sgn ++ String d ds) = Some n ->
  int_str (String d ds) = Some m ->
  parseindex (DStr (axis_token l ob sgn cb (String d ds)))
  = if Bool.eqb ob cb
    then Ok (mkIndex (Some Column) (Some n) ob)
    else Ok (mkIndex (Some Row) (Some m) false).
Proof.
  intros Hl Hn Hm. cbn [parseindex].
  rewrite (parsecoordregex_token ob sgn cb d ds d_digit ds_digits Column l n Hl Hn).
  destruct (Bool.eqb ob cb) eqn:E.
  - cbn [try_except]. apply Bool.eqb_prop in E. subst cb. destruct ob; reflexivity.
  - cbn [try_except]. unfold parsecoordregex.
    rewrite (search_ROWRE_column_token l ob sgn cb (ieq_C_cases l Hl)).
    cbn [type_name append group String.eqb Ascii.eqb Bool.eqb truthy]. cbv iota.
    unfold int. rewrite Hm. reflexivity.
Qed.

End ColumnTokenAsDescriptor.

(** X4. A row token handed to [parseindex] (the letter R or r, then the
    integer [n], with either bracket or none) is never read as a row:
    [parseindex] tries the column pattern first, which takes the letter R
    for a column name, so that the result is the relative column Index of
    value 18 whatever [n] and the brackets are. *)
Theorem row_token_descriptor_is_column_R :
  forall (l : ascii) (n : Z) (ob cb : bool),
    ieq "R" l = true ->
    parseindex (DStr (axis_token l ob (n <? 0) cb (str_int (Z.abs n))))
    = Ok (mkIndex (Some Column) (Some 18) false).
Proof.
  intros l n ob cb Hl.
  destruct (str_int_nonneg (Z.abs n) (Z.abs_nonneg n)) as (d & ds & E & Hd & Hds & _).
  rewrite E. apply parseindex_row_token; assumption.
Qed.

Lemma row_token_descriptor_is_column_R_witness :
  ieq "R" "R" = true
  /\ parseindex (DStr "R[-5]") = Ok (mkIndex (Some Column) (Some 18) false).
Proof.
  split; [reflexivity |].
  apply (row_token_descriptor_is_column_R "R" (-5) true true). reflexivity.
Defined.

(** X5. A column token handed to [parseindex] (the letter C or c, then
    the integer [n]): with both brackets or with none it is the column
    Index of value [n], whose flag is set exactly when the brackets are
    there; with one bracket only, the SyntaxError of the column pattern is
    swallowed by the bare [except] and the text is read again as a row,
    which finds the digits without their sign: the result is the row Index
    of value [|n|], not absolute, and no error is raised. *)
Theorem column_token_descriptor :
  forall (l : ascii) (n : Z) (ob cb : bool),
    ieq "C" l = true ->
    parseindex (DStr (axis_token l ob (n <? 0) cb (str_int (Z.abs n))))
    = if Bool.eqb ob cb
      then Ok (mkIndex (Some Column) (Some n) ob)
      else Ok (mkIndex (Some Row) (Some (Z.abs n)) false).
Proof.
  intros l n ob cb Hl.
  destruct (str_int_nonneg (Z.abs n) (Z.abs_nonneg n)) as (d & ds & E & Hd & Hds & Hm).
  rewrite E. apply parseindex_column_token; try assumption.
  rewrite <- E, <- str_int_abs. apply int_str_str_int.
Qed.

Lemma column_token_descriptor_witness :
  ieq "C" "c" = true
  /\ parseindex (DStr "c[-7") = Ok (mkIndex (Some Row) (Some 7) false).
Proof.
  split; [reflexivity |].
  apply (column_token_descriptor "c" (-7) true false). reflexivity.
Defined.

(** ** parseindex of a tuple or list *)

Lemma parseindex_pair (d flag : descriptor) :
  parseindex (DTuple [d; flag])
  = (index <- parseindex d ;;
     absolute' <- absolute_flag flag ;;
     if absolute index && negb absolute'
     then Raise ValueError SecondIndexContradicts
     else Ok (mkIndex (type index) (value index) absolute')).
Proof. reflexivity. Qed.

(** X6. [parseindex((d, flag))]: an error of [parseindex(d)] comes first,
    whatever the flag is; with a boolean flag the Index of [d] is returned
    with the flag as its [absolute], except that an absolute Index with a
    false flag raises the ValueError "second index contradicts the first";
    the texts "$" and "absolute" in any case and the integer 1 stand for
    [True], the empty text and the integer 0 for [False]; a list is read
    as a tuple. *)
Theorem parseindex_absolute_override :
  forall (d : descriptor),
    (forall index a,
        parseindex d = Ok index ->
        parseindex (DTuple [d; DBool a])
        = if absolute index && negb a
          then Raise ValueError SecondIndexContradicts
          else Ok (mkIndex (type index) (value index) a))
    /\ (forall cls msg flag,
           parseindex d = Raise cls msg ->
           parseindex (DTuple [d; flag]) = Raise cls msg)
    /\ (forall s,
           lower s = "$" \/ lower s = "absolute" ->
           parseindex (DTuple [d; DStr s]) = parseindex (DTuple [d; DBool true]))
    /\ parseindex (DTuple [d; DInt 1]) = parseindex (DTuple [d; DBool true])
    /\ parseindex (DTuple [d; DStr EmptyString]) = parseindex (DTuple [d; DBool false])
    /\ parseindex (DTuple [d; DInt 0]) = parseindex (DTuple [d; DBool false])
    /\ (forall flag, parseindex (DList [d; flag]) = parseindex (DTuple [d; flag])).
Proof.
  intro d. repeat split.
  - intros index a H. rewrite parseindex_pair, H. reflexivity.
  - intros cls msg flag H. rewrite parseindex_pair, H. reflexivity.
  - intros s H. rewrite !parseindex_pair. cbn [absolute_flag].
    destruct H as [-> | ->]; reflexivity.
Qed.

Lemma parseindex_absolute_override_witness :
  parseindex (DStr "$A") = Ok (mkIndex (Some Column) (Some 1) true)
  /\ parseindex (DTuple [DStr "$A"; DBool false])
     = Raise ValueError SecondIndexContradicts
  /\ lower "Absolute" = "absolute"
  /\ parseindex (DTuple [DStr "7"; DStr "Absolute"])
     = parseindex (DTuple [DStr "7"; DBool true]).
Proof.
  split; [reflexivity |].
  split; [exact (proj1 (parseindex_absolute_override (DStr "$A")) _ false eq_refl) |].
  split; [reflexivity |].
  apply (proj1 (proj2 (proj2 (parseindex_absolute_override (DStr "7"))))).
  right. reflexivity.
Defined.

(** X7. An integer cannot be made relative: [parseindex((n, flag))]
    returns the absolute Index of [n] for a flag that stands for [True],
    raises the ValueError "second index contradicts the first" for a flag
    that stands for [False], and raises the error of the flag otherwise. *)
Theorem parseindex_integer_never_relative :
  forall (n : Z) (flag : descriptor),
    parseindex (DTuple [DInt n; flag])
    = match absolute_flag flag with
      | Ok true => Ok (mkIndex None (Some n) true)
      | Ok false => Raise ValueError SecondIndexContradicts
      | Raise cls msg => Raise cls msg
      end.
Proof.
  intros n flag. rewrite parseindex_pair. cbn [parseindex bind].
  destruct (absolute_flag flag) as [[] |]; reflexivity.
Qed.

(** X8. The length of a tuple or list handed to [parseindex]: more than
    two items raise the ValueError "Coordinate part's length should be 1
    or 2"; the test [0 > len(value)] never holds, so that an empty
    sequence gets past it and [value[0]] raises IndexError; a sequence of
    one item is parsed as the item itself. *)
Theorem parseindex_sequence_shape :
  (forall l : list descriptor,
      (2 < List.length l)%nat ->
      parseindex (DTuple l) = Raise ValueError PartLength
      /\ parseindex (DList l) = Raise ValueError PartLength)
  /\ parseindex (DTuple []) = Raise IndexError OutOfRange
  /\ parseindex (DList []) = Raise IndexError OutOfRange
  /\ (forall d, parseindex (DTuple [d]) = parseindex d
                /\ parseindex (DList [d]) = parseindex d).
Proof.
  split; [| split; [reflexivity | split; [reflexivity |]]].
  - intros l H. apply Nat.ltb_lt in H. cbn [parseindex]. rewrite H. split; reflexivity.
  - intro d. cbn [parseindex List.length Nat.ltb Nat.leb].
    destruct (parseindex d); split; reflexivity.
Qed.

Lemma parseindex_sequence_shape_witness :
  (2 < List.length [DInt 1; DInt 2; DInt 3])%nat
  /\ parseindex (DTuple [DInt 1; DInt 2; DInt 3]) = Raise ValueError PartLength.
Proof.
  split; [cbn; lia |].
  apply (proj1 parseindex_sequence_shape [DInt 1; DInt 2; DInt 3]). cbn. lia.
Defined.

(** ** converttotuple: which Index is the row and which the column *)

Lemma replace_type_same (index : Index) (t : IndexType) :
  type index = Some t -> replace_type index t = index.
Proof. destruct index as [ty v a]. cbn. intros ->. reflexivity. Qed.

(** X9. Two Indexes that both carry a value and are not of one known
    axis: when the first is a column or the second is a row they change
    places, otherwise they keep their places; then the first is tagged
    row and the second column, whatever tag (none, or the right one) each
    had. *)
Theorem disambiguate_by_type :
  forall index0 index1 : Index,
    valued index0 = true ->
    valued index1 = true ->
    type index0 <> type index1 \/ type index0 = None ->
    disambiguate index0 index1
    = Ok (if is_type Column index0 || is_type Row index1
          then (replace_type index1 Row, replace_type index0 Column)
          else (replace_type index0 Row, replace_type index1 Column)).
Proof.
  intros [[[]|] [v0|] a0] [[[]|] [v1|] a1] H0 H1 Ht;
    try discriminate H0; try discriminate H1;
    try reflexivity;
    exfalso; destruct Ht as [Ht | Ht]; try discriminate Ht; apply Ht; reflexivity.
Qed.

Lemma disambiguate_by_type_witness :
  valued (mkIndex None (Some 7) true) = true
  /\ valued (mkIndex (Some Row) (Some 2) false) = true
  /\ disambiguate (mkIndex None (Some 7) true) (mkIndex (Some Row) (Some 2) false)
     = Ok (mkIndex (Some Row) (Some 2) false, mkIndex (Some Column) (Some 7) true).
Proof.
  split; [reflexivity | split; [reflexivity |]].
  apply (disambiguate_by_type (mkIndex None (Some 7) true)
           (mkIndex (Some Row) (Some 2) false) eq_refl eq_refl).
  left. discriminate.
Defined.

(** X10. One Index with a value and a known axis, the other without a
    value: the order of the two arguments does not matter, the Index goes
    to the place of its axis and keeps its tag, and the None-Index takes
    the other place. *)
Theorem disambiguate_single_typed :
  forall (index other : Index) (t : IndexType),
    valued index = true ->
    valued other = false ->
    type index = Some t ->
    disambiguate index other = disambiguate other index
    /\ disambiguate index other
       = Ok (match t with Row => (index, other) | Column => (other, index) end).
Proof.
  intros [ty [v|] a] [ty' [v'|] a'] t H0 H1 Ht;
    try discriminate H0; try discriminate H1.
  cbn in Ht. subst ty. destruct t; split; reflexivity.
Qed.

Lemma disambiguate_single_typed_witness :
  valued (mkIndex (Some Column) (Some 3) false) = true
  /\ valued (mkIndex None None false) = false
  /\ disambiguate (mkIndex (Some Column) (Some 3) false) (mkIndex None None false)
     = Ok (mkIndex None None false, mkIndex (Some Column) (Some 3) false).
Proof.
  split; [reflexivity | split; [reflexivity |]].
  apply (disambiguate_single_typed (mkIndex (Some Column) (Some 3) false)
           (mkIndex None None false) Column eq_refl eq_refl eq_refl).
Defined.

(** X11. Two Indexes of one known axis, both with a value: two columns
    raise the ValueError "Duplicated Arguments"; so do two absolute rows;
    two rows of which the second is not absolute are kept in their order,
    the second one retagged column. *)
Theorem disambiguate_duplicates :
  forall index0 index1 : Index,
    valued index0 = true ->
    valued index1 = true ->
    (is_type Column index0 && is_type Column index1 = true ->
     disambiguate index0 index1 = Raise ValueError DuplicatedArguments)
    /\ (is_type Row index0 && is_type Row index1 = true ->
        (absolute index0 && absolute index1 = true ->
         disambiguate index0 index1 = Raise ValueError DuplicatedArguments)
        /\ (absolute index1 = false ->
            disambiguate index0 index1 = Ok (index0, replace_type index1 Column))).
Proof.
  intros [[[]|] [v0|] a0] [[[]|] [v1|] a1] H0 H1;
    try discriminate H0; try discriminate H1;
    (split; intro H; try discriminate H);
    try reflexivity;
    (split; intro H'; cbn [absolute] in H'; destruct a0, a1;
     try discriminate H'; reflexivity).
Qed.

Lemma disambiguate_duplicates_witness :
  valued (mkIndex (Some Row) (Some 1) true) = true
  /\ valued (mkIndex (Some Row) (Some 2) false) = true
  /\ disambiguate (mkIndex (Some Row) (Some 1) true) (mkIndex (Some Row) (Some 2) false)
     = Ok (mkIndex (Some Row) (Some 1) true, mkIndex (Some Column) (Some 2) false).
Proof.
  split; [reflexivity | split; [reflexivity |]].
  apply (proj2 (proj2 (disambiguate_duplicates (mkIndex (Some Row) (Some 1) true)
                         (mkIndex (Some Row) (Some 2) false) eq_refl eq_refl)
                  eq_refl)).
  reflexivity.
Defined.

(** ** Coordinate(row, column) of two texts *)

(** [Coordinate(row, column)] with an explicit second argument. *)
Lemma Coordinate_init_pair (r c : descriptor) (i0 i1 row' column' : Index) :
  is_False c = false ->
  parseindex r = Ok i0 ->
  parseindex c = Ok i1 ->
  disambiguate i0 i1 = Ok (row', column') ->
  Coordinate_init r c = Ok (mkCoordinate row' column').
Proof.
  intros Hc H0 H1 Hd. unfold Coordinate_init. rewrite Hc.
  assert (E : converttotuple (DTuple [r; c]) = Ok (row', column')).
  { cbn [converttotuple]. rewrite H0, H1. cbn [bind]. exact Hd. }
  destruct r; rewrite E; reflexivity.
Qed.

Lemma Coordinate_init_pair_error (r c : descriptor) (i0 i1 : Index) cls msg :
  is_False c = false ->
  parseindex r = Ok i0 ->
  parseindex c = Ok i1 ->
  disambiguate i0 i1 = Raise cls msg ->
  Coordinate_init r c = Raise AttributeError InvalidValuesForCoordinate.
Proof.
  intros Hc H0 H1 Hd. unfold Coordinate_init. rewrite Hc.
  assert (E : converttotuple (DTuple [r; c]) = Raise cls msg).
  { cbn [converttotuple]. rewrite H0, H1. cbn [bind]. exact Hd. }
  destruct r; rewrite E; reflexivity.
Qed.

(** X12. A column name of [c] in 1..18278 and the decimal text of a row
    [r >= 0], each with a dollar sign or not, make the same Coordinate in
    three ways: as two arguments in either order, and as one text, the
    name before the digits; its row is [r], its column [c], and each axis
    is absolute exactly when its text has the dollar sign. *)
Theorem Coordinate_axis_texts :
  forall (r c : Z) (br bc : bool),
    0 <= r ->
    1 <= c <= 18278 ->
    exists letters,
      get_column_letter c = Ok letters
      /\ Coordinate_init (DStr (dollar bc ++ letters)) (DStr (dollar br ++ str_int r))
         = Ok (cell r br c bc)
      /\ Coordinate_init (DStr (dollar br ++ str_int r)) (DStr (dollar bc ++ letters))
         = Ok (cell r br c bc)
      /\ Coordinate_init (DStr (letter_digit_text bc letters br (str_int r))) no_column
         = Ok (cell r br c bc).
Proof.
  intros r c br bc Hr Hc.
  destruct (str_int_nonneg r Hr) as (d & ds & E & Hd & Hds & Hint).
  destruct (get_column_letter_name c Hc) as (l & ls & El & Hl & Hls & Hcol).
  exists (String l ls). rewrite E.
  pose proof (parseindex_digits br d ds r Hd Hds Hint) as Pr.
  pose proof (parseindex_letters bc l ls c Hl Hls Hcol) as Pc.
  split; [exact El | split; [| split]].
  - eapply Coordinate_init_pair; [reflexivity | exact Pc | exact Pr | reflexivity].
  - eapply Coordinate_init_pair; [reflexivity | exact Pr | exact Pc | reflexivity].
  - unfold Coordinate_init, no_column. cbn [is_False].
    rewrite (converttotuple_letter_digit bc br l ls d ds Hl Hls Hd Hds c r Hcol Hint).
    reflexivity.
Qed.

Lemma Coordinate_axis_texts_witness :
  0 <= 3 /\ 1 <= 2 <= 18278
  /\ exists letters,
       get_column_letter 2 = Ok letters
       /\ Coordinate_init (DStr (dollar true ++ letters)) (DStr (dollar false ++ str_int 3))
          = Ok (cell 3 false 2 true)
       /\ Coordinate_init (DStr (dollar false ++ str_int 3)) (DStr (dollar true ++ letters))
          = Ok (cell 3 false 2 true)
       /\ Coordinate_init (DStr (letter_digit_text true letters false (str_int 3))) no_column
          = Ok (cell 3 false 2 true).
Proof.
  split; [lia | split; [lia |]].
  apply (Coordinate_axis_texts 3 2 false true); lia.
Defined.

(** Two decimal texts: the first is the row, the second the column. *)
Lemma Coordinate_init_digit_texts (r c : Z) (b : bool) :
  0 <= r ->
  0 <= c ->
  Coordinate_init (DStr (dollar b ++ str_int r)) (DStr (str_int c))
  = Ok (cell r b c false).
Proof.
  intros Hr Hc.
  destruct (str_int_nonneg r Hr) as (d & ds & E & Hd & Hds & Hint).
  destruct (str_int_nonneg c Hc) as (d' & ds' & E' & Hd' & Hds' & Hint').
  rewrite E, E'.
  eapply Coordinate_init_pair;
    [ reflexivity
    | exact (parseindex_digits b d ds r Hd Hds Hint)
    | exact (parseindex_digits false d' ds' c Hd' Hds' Hint')
    | destruct b; reflexivity ].
Qed.

(** X13. Two decimal texts as the two arguments of [Coordinate]: both are
    read as rows, and the second, when it has no dollar sign, is taken for
    the column, the first keeping its flag; this is how [dicts_to_table]
    builds its offsets [Coordinate(str(roffset), str(coffset))].  With a
    dollar sign before both, the AttributeError "Invalid values for
    cooridinate" is raised. *)
Theorem Coordinate_row_texts :
  forall (r c : Z) (b : bool),
    0 <= r ->
    0 <= c ->
    Coordinate_init (DStr (dollar b ++ str_int r)) (DStr (str_int c))
    = Ok (cell r b c false)
    /\ Coordinate_init (DStr (String "$" (str_int r))) (DStr (String "$" (str_int c)))
       = Raise AttributeError InvalidValuesForCoordinate.
Proof.
  intros r c b Hr Hc. split; [apply Coordinate_init_digit_texts; assumption |].
  destruct (str_int_nonneg r Hr) as (d & ds & E & Hd & Hds & Hint).
  destruct (str_int_nonneg c Hc) as (d' & ds' & E' & Hd' & Hds' & Hint').
  rewrite E, E'.
  eapply Coordinate_init_pair_error;
    [ reflexivity
    | exact (parseindex_digits true d ds r Hd Hds Hint)
    | exact (parseindex_digits true d' ds' c Hd' Hds' Hint')
    | reflexivity ].
Qed.

Lemma Coordinate_row_texts_witness :
  0 <= 1 /\ 0 <= 0
  /\ Coordinate_init (DStr "1") (DStr "0") = Ok (cell 1 false 0 false).
Proof.
  split; [lia | split; [lia |]].
  apply (proj1 (Coordinate_row_texts 1 0 false ltac:(lia) ltac:(lia))).
Defined.

(** X14. Two column names as the two arguments of [Coordinate], with a
    dollar sign or not, raise the AttributeError "Invalid values for
    cooridinate": two columns are never told apart. *)
Theorem Coordinate_column_texts :
  forall (c1 c2 : Z) (b1 b2 : bool),
    1 <= c1 <= 18278 ->
    1 <= c2 <= 18278 ->
    (l1 <- get_column_letter c1 ;;
     l2 <- get_column_letter c2 ;;
     Coordinate_init (DStr (dollar b1 ++ l1)) (DStr (dollar b2 ++ l2)))
    = Raise AttributeError InvalidValuesForCoordinate.
Proof.
  intros c1 c2 b1 b2 H1 H2.
  destruct (get_column_letter_name c1 H1) as (l & ls & El & Hl & Hls & Hcol).
  destruct (get_column_letter_name c2 H2) as (l' & ls' & El' & Hl' & Hls' & Hcol').
  rewrite El, El'. cbn [bind].
  eapply Coordinate_init_pair_error;
    [ reflexivity
    | exact (parseindex_letters b1 l ls c1 Hl Hls Hcol)
    | exact (parseindex_letters b2 l' ls' c2 Hl' Hls' Hcol')
    | reflexivity ].
Qed.

Lemma Coordinate_column_texts_witness :
  1 <= 1 <= 18278 /\ 1 <= 28 <= 18278
  /\ (l1 <- get_column_letter 1 ;;
      l2 <- get_column_letter 28 ;;
      Coordinate_init (DStr (dollar true ++ l1)) (DStr (dollar false ++ l2)))
     = Raise AttributeError InvalidValuesForCoordinate.
Proof.
  split; [lia | split; [lia |]].
  apply (Coordinate_column_texts 1 28 true false); lia.
Defined.

(** ** What every Coordinate holds *)

Lemma parsecoordregex_typed_valued (s : string) (colrow : IndexType) (index : Index) :
  parsecoordregex s colrow = Ok index ->
  exists n a, index = mkIndex (Some colrow) (Some n) a.
Proof.
  unfold parsecoordregex.
  destruct (search _ s) as [m |]; [| discriminate].
  destruct (truthy (group m _)).
  - match goal with |- bind ?x _ = _ -> _ => destruct x as [n |]; [| discriminate] end.
    cbn [bind]. intros [= <-]. eexists _, _. reflexivity.
  - destruct (negb _); [discriminate |].
    match goal with |- bind ?x _ = _ -> _ => destruct x as [n |]; [| discriminate] end.
    cbn [bind]. intros [= <-]. eexists _, _. reflexivity.
Qed.

Lemma converttotuple_text_cell (s : string) (rc : Index * Index) :
  converttotuple (DStr s) = Ok rc ->
  exists r ra c ca,
    rc = (mkIndex (Some Row) (Some r) ra, mkIndex (Some Column) (Some c) ca).
Proof.
  cbn [converttotuple].
  destruct (search FULLRE s) as [m |]; [| discriminate].
  unfold parsecoordgroup.
  destruct (group m _) as [t |]; [| discriminate].
  destruct (parsecoordregex t Row) as [i0 |] eqn:E0; [| discriminate]. cbn [bind].
  destruct (group m _) as [t' |]; [| discriminate].
  destruct (parsecoordregex t' Column) as [i1 |] eqn:E1; [| discriminate]. cbn [bind].
  intros [= <-].
  destruct (parsecoordregex_typed_valued _ _ _ E0) as (r & ra & ->).
  destruct (parsecoordregex_typed_valued _ _ _ E1) as (c & ca & ->).
  exists r, ra, c, ca. reflexivity.
Qed.

Lemma disambiguate_invariant (index0 index1 row' column' : Index) :
  disambiguate index0 index1 = Ok (row', column') ->
  valued row' || valued column' = true
  /\ (valued row' && valued column' = true ->
      type row' = Some Row /\ type column' = Some Column).
Proof.
  destruct index0 as [[[]|] [v0|] []], index1 as [[[]|] [v1|] []];
    cbv; intro H; try discriminate H; injection H as <- <-;
    (split; [reflexivity | intro H'; try discriminate H'; split; reflexivity]).
Qed.

(** The two ways [Coordinate.__init__] reaches [converttotuple]. *)
Lemma Coordinate_init_inv (r c : descriptor) (coord : Coordinate) :
  Coordinate_init r c = Ok coord ->
  (exists s, r = DStr s /\ is_False c = true
             /\ converttotuple (DStr s) = Ok (_row coord, _column coord))
  \/ (exists r' c' i0 i1,
         parseindex r' = Ok i0 /\ parseindex c' = Ok i1
         /\ disambiguate i0 i1 = Ok (_row coord, _column coord)).
Proof.
  unfold Coordinate_init.
  assert (Hpair : forall c',
             (rc <- try_except (converttotuple (DTuple [r; c']))
                      (Raise AttributeError InvalidValuesForCoordinate) ;;
              Ok (mkCoordinate (fst rc) (snd rc))) = Ok coord ->
             exists r' c' i0 i1,
               parseindex r' = Ok i0 /\ parseindex c' = Ok i1
               /\ disambiguate i0 i1 = Ok (_row coord, _column coord)).
  { intros c'. cbn [converttotuple].
    destruct (parseindex r) as [i0 |] eqn:E0; [| discriminate]. cbn [bind].
    destruct (parseindex c') as [i1 |] eqn:E1; [| discriminate]. cbn [bind].
    destruct (disambiguate i0 i1) as [[a b] |] eqn:Ed; [| discriminate].
    cbn. intros [= <-]. cbn. exists r, c', i0, i1. auto. }
  destruct r; try (intro H; right; exact (Hpair _ H)).
  destruct (is_False c) eqn:Ec; [| intro H; right; exact (Hpair _ H)].
  destruct (converttotuple (DStr s)) as [[a b] |] eqn:E; [| discriminate].
  cbn. intros [= <-]. left. exists s. auto.
Qed.

(** X15. A Coordinate that [Coordinate(row, column)] has built is never
    empty: its row or its column has a value, whatever the two
    descriptors were. *)
Theorem Coordinate_never_empty :
  forall (r c : descriptor) (coord : Coordinate),
    Coordinate_init r c = Ok coord ->
    row coord <> None \/ column coord <> None.
Proof.
  intros r c coord H.
  assert (Hv : valued (_row coord) || valued (_column coord) = true).
  { destruct (Coordinate_init_inv r c coord H)
      as [(s & _ & _ & Hs) | (r' & c' & i0 & i1 & _ & _ & Hd)].
    - destruct (converttotuple_text_cell s _ Hs) as (x & xa & y & ya & E).
      injection E as -> ->. reflexivity.
    - apply (disambiguate_invariant _ _ _ _ Hd). }
  unfold row, column, valued in *.
  destruct (value (_row coord)); [left; discriminate |].
  destruct (value (_column coord)); [right; discriminate | discriminate].
Qed.

Lemma Coordinate_never_empty_witness :
  Coordinate_init DNone (DInt 5)
  = Ok (mkCoordinate (mkIndex None None false) (mkIndex None (Some 5) true))
  /\ (row (mkCoordinate (mkIndex None None false) (mkIndex None (Some 5) true)) <> None
      \/ column (mkCoordinate (mkIndex None None false) (mkIndex None (Some 5) true))
         <> None).
Proof.
  split; [reflexivity |].
  apply (Coordinate_never_empty DNone (DInt 5)). reflexivity.
Defined.

(** X16. A Coordinate that [Coordinate(row, column)] has built with a
    value on both axes is a cell: its first Index is tagged row and its
    second column, whatever tags and order the descriptors had.  A
    Coordinate built from one text (no second argument) always is one:
    one text never gives a single-axis Coordinate. *)
Theorem Coordinate_cell_typed :
  forall (r c : descriptor) (coord : Coordinate),
    Coordinate_init r c = Ok coord ->
    (row coord <> None /\ column coord <> None)
    \/ (exists s, r = DStr s /\ c = no_column) ->
    exists x xa y ya, coord = cell x xa y ya.
Proof.
  intros r c [a b] H Hrc. unfold row, column in *. cbn [_row _column] in *.
  destruct (Coordinate_init_inv r c _ H)
    as [(s & _ & _ & Hs) | (r' & c' & i0 & i1 & _ & _ & Hd)];
    cbn [_row _column] in *.
  - destruct (converttotuple_text_cell s _ Hs) as (x & xa & y & ya & E).
    injection E as -> ->. exists x, xa, y, ya. reflexivity.
  - destruct Hrc as [[Hr Hc] | (s & -> & ->)].
    + destruct (disambiguate_invariant _ _ _ _ Hd) as [_ Ht].
      destruct a as [ta [x |] xa]; [| exfalso; apply Hr; reflexivity].
      destruct b as [tb [y |] ya]; [| exfalso; apply Hc; reflexivity].
      destruct (Ht eq_refl) as [Ha Hb]. cbn in Ha, Hb. subst ta tb.
      exists x, xa, y, ya. reflexivity.
    + unfold Coordinate_init, no_column in H. cbn [is_False] in H.
      destruct (converttotuple (DStr s)) as [[a' b'] |] eqn:E; [| discriminate].
      cbn in H. injection H as <- <-.
      destruct (converttotuple_text_cell s _ E) as (x & xa & y & ya & E').
      injection E' as -> ->. exists x, xa, y, ya. reflexivity.
Qed.

Lemma Coordinate_cell_typed_witness :
  Coordinate_init (DStr "B") (DInt 4) = Ok (cell 4 true 2 false)
  /\ exists x xa y ya, cell 4 true 2 false = cell x xa y ya.
Proof.
  split; [reflexivity |].
  apply (Coordinate_cell_typed (DStr "B") (DInt 4) (cell 4 true 2 false) eq_refl).
  left. split; discriminate.
Defined.

(** ** Addition *)

Lemma type_eqb_eq a b : type_eqb a b = true -> a = b.
Proof. destruct a as [[]|], b as [[]|]; cbn; congruence. Qed.

Lemma type_eqb_sym a b : type_eqb a b = type_eqb b a.
Proof. destruct a as [[]|], b as [[]|]; reflexivity. Qed.

Lemma addindices_comm (index1 index2 : Index) :
  addindices index1 index2 = addindices index2 index1.
Proof.
  destruct index1 as [t1 v1 a1], index2 as [t2 v2 a2].
  unfold addindices. cbn [absolute type value].
  rewrite (andb_comm a2 a1), (type_eqb_sym t2 t1).
  destruct (a1 && a2) eqn:Ea; [reflexivity |].
  destruct (type_eqb t1 t2) eqn:Et; [| reflexivity].
  apply type_eqb_eq in Et. subst t2. cbn [negb].
  destruct a1, a2; try discriminate Ea; cbn [absolute type value];
    destruct v1 as [x |], v2 as [y |]; try reflexivity;
    rewrite (Z.add_comm y x); reflexivity.
Qed.

(** X17. Addition does not depend on the order of its operands:
    [addindices(a, b)] and [addindices(b, a)] return the same Index or
    raise the same exception (class and message template), and so do
    [self + other] and [other + self] for two Coordinates. *)
Theorem addition_commutative :
  forall (index1 index2 : Index) (self other : Coordinate),
    addindices index1 index2 = addindices index2 index1
    /\ add self (OCoordinate other) = add other (OCoordinate self).
Proof.
  intros index1 index2 self other. split; [apply addindices_comm |].
  unfold add, add_Coordinate.
  rewrite (andb_comm (absolute (_row other))), (andb_comm (absolute (_column other))).
  rewrite (addindices_comm (_row other)), (addindices_comm (_column other)).
  reflexivity.
Qed.

Lemma addindices_valued (t : option IndexType) (v1 v2 : Z) (a1 a2 : bool) :
  addindices (mkIndex t (Some v1) a1) (mkIndex t (Some v2) a2)
  = if a1 && a2
    then Raise AttributeError CannotAddTwoAbsoluteIndices
    else if (a1 || a2) && (v1 + v2 <=? 0)
    then Raise ValueError ReducedBelowZero
    else Ok (mkIndex t (Some (v1 + v2)) (a1 || a2)).
Proof.
  unfold addindices. cbn [absolute type value].
  assert (Ht : type_eqb t t = true) by (destruct t as [[]|]; reflexivity).
  rewrite Ht. destruct a1, a2; cbn [andb orb negb absolute type value];
    rewrite ?(Z.add_comm v2 v1); reflexivity.
Qed.

Lemma add_Coordinate_cells (r1 c1 r2 c2 : Z) (a1 b1 a2 b2 : bool) :
  add_Coordinate (cell r1 a1 c1 b1) (cell r2 a2 c2 b2)
  = if (a1 && a2) || (b1 && b2)
    then Raise AttributeError CannotAddTwoAbsoluteReferences
    else if (a1 || a2) && (r1 + r2 <=? 0)
    then Raise ValueError ReducedBelowZero
    else if (b1 || b2) && (c1 + c2 <=? 0)
    then Raise ValueError ReducedBelowZero
    else Ok (cell (r1 + r2) (a1 || a2) (c1 + c2) (b1 || b2)).
Proof.
  unfold add_Coordinate, cell. cbn [_row _column absolute].
  rewrite !addindices_valued.
  destruct ((a1 && a2) || (b1 && b2)) eqn:E; [reflexivity |].
  apply orb_false_elim in E as [-> ->].
  destruct ((a1 || a2) && (r1 + r2 <=? 0)); [reflexivity |].
  destruct ((b1 || b2) && (c1 + c2 <=? 0)); [reflexivity |].
  reflexivity.
Qed.

(** X18. The sum of two cells, in closed form: the [+] of two Coordinates
    that both have a row and a column raises the AttributeError "Cannot
    add two Absolute references" when the two rows or the two columns are
    both absolute; otherwise the ValueError "Absolute Reference reduced
    below 0" when an axis with an absolute operand sums to 0 or less, the
    row being looked at first; otherwise it is the cell of the two sums,
    each axis absolute exactly when one of its operands is, and building
    the result through [Coordinate(row = ..., column = ...)] changes
    nothing of it. *)
Theorem add_cells :
  forall (r1 c1 r2 c2 : Z) (a1 b1 a2 b2 : bool),
    add (cell r1 a1 c1 b1) (OCoordinate (cell r2 a2 c2 b2))
    = if (a1 && a2) || (b1 && b2)
      then Raise AttributeError CannotAddTwoAbsoluteReferences
      else if (a1 || a2) && (r1 + r2 <=? 0)
      then Raise ValueError ReducedBelowZero
      else if (b1 || b2) && (c1 + c2 <=? 0)
      then Raise ValueError ReducedBelowZero
      else Ok (Some (cell (r1 + r2) (a1 || a2) (c1 + c2) (b1 || b2))).
Proof.
  intros. unfold add. rewrite add_Coordinate_cells.
  destruct ((a1 && a2) || (b1 && b2)); [reflexivity |].
  destruct ((a1 || a2) && (r1 + r2 <=? 0)); [reflexivity |].
  destruct ((b1 || b2) && (c1 + c2 <=? 0)); reflexivity.
Qed.

Lemma add_Coordinate_cells_ok (r1 c1 r2 c2 : Z) (a1 b1 a2 b2 : bool) (s : Coordinate) :
  add_Coordinate (cell r1 a1 c1 b1) (cell r2 a2 c2 b2) = Ok s ->
  s = cell (r1 + r2) (a1 || a2) (c1 + c2) (b1 || b2).
Proof.
  rewrite add_Coordinate_cells.
  destruct ((a1 && a2) || (b1 && b2)); [discriminate |].
  destruct ((a1 || a2) && (r1 + r2 <=? 0)); [discriminate |].
  destruct ((b1 || b2) && (c1 + c2 <=? 0)); [discriminate |].
  intros [= <-]. reflexivity.
Qed.

(** X19. Addition of cells is associative where both groupings succeed:
    if [(x + y) + z] and [x + (y + z)] both return a Coordinate, they
    return the same one, and it is absolute exactly when one of the six
    Indexes is. *)
Theorem add_cells_associative :
  forall (r1 c1 r2 c2 r3 c3 : Z) (a1 b1 a2 b2 a3 b3 : bool)
         (xy yz s1 s2 : Coordinate),
    add_Coordinate (cell r1 a1 c1 b1) (cell r2 a2 c2 b2) = Ok xy ->
    add_Coordinate xy (cell r3 a3 c3 b3) = Ok s1 ->
    add_Coordinate (cell r2 a2 c2 b2) (cell r3 a3 c3 b3) = Ok yz ->
    add_Coordinate (cell r1 a1 c1 b1) yz = Ok s2 ->
    s1 = s2 /\ isabsolute s1 = (a1 || a2 || a3) || (b1 || b2 || b3).
Proof.
  intros until s2. intros Hxy H1 Hyz H2.
  apply add_Coordinate_cells_ok in Hxy. subst xy.
  apply add_Coordinate_cells_ok in Hyz. subst yz.
  apply add_Coordinate_cells_ok in H1. apply add_Coordinate_cells_ok in H2.
  subst s1 s2. split.
  - rewrite !Z.add_assoc, !orb_assoc. reflexivity.
  - unfold isabsolute, cell. cbn [_row _column absolute].
    destruct a1, a2, a3, b1, b2, b3; reflexivity.
Qed.

Lemma add_cells_associative_witness :
  add_Coordinate (cell 2 true 3 false) (cell 1 false 1 false) = Ok (cell 3 true 4 false)
  /\ add_Coordinate (cell 3 true 4 false) (cell (-1) false 5 true) = Ok (cell 2 true 9 true)
  /\ add_Coordinate (cell 1 false 1 false) (cell (-1) false 5 true) = Ok (cell 0 false 6 true)
  /\ add_Coordinate (cell 2 true 3 false) (cell 0 false 6 true) = Ok (cell 2 true 9 true)
  /\ cell 2 true 9 true = cell 2 true 9 true.
Proof.
  repeat (split; [reflexivity |]).
  apply (add_cells_associative 2 3 1 1 (-1) 5 true false false false false true
           (cell 3 true 4 false) (cell 0 false 6 true)
           (cell 2 true 9 true) (cell 2 true 9 true));
    reflexivity.
Defined.

Lemma add_Coordinate_needs_both_axes (self other : Coordinate) :
  valued (_row self) && valued (_column self)
  && valued (_row other) && valued (_column other) = false ->
  exists cls msg, add_Coordinate self other = Raise cls msg.
Proof.
  destruct self as [[t1 v1 a1] [t2 v2 a2]], other as [[t3 v3 a3] [t4 v4 a4]].
  intro H. unfold valued in H. cbn [_row _column value] in H.
  unfold add_Coordinate, addindices. cbn [_row _column absolute type value].
  destruct (a1 && a3); cbn [orb]; [eexists _, _; reflexivity |].
  destruct (a2 && a4); cbn [orb]; [eexists _, _; reflexivity |].
  destruct (type_eqb t1 t3); cbn [negb]; [| eexists _, _; reflexivity].
  destruct a3; cbn [absolute type value];
    (destruct v1 as [x1 |], v3 as [x3 |];
     [| eexists _, _; reflexivity ..]);
    (match goal with
     | |- context [if ?b then Raise _ _ else Ok _] =>
         destruct b; cbn [bind]; [eexists _, _; reflexivity |]
     end);
    (destruct (type_eqb t2 t4); cbn [negb]; [| eexists _, _; reflexivity]);
    destruct a4; cbn [absolute type value];
    destruct v2 as [x2 |], v4 as [x4 |]; try discriminate H;
    eexists _, _; reflexivity.
Qed.

(** X20. A Coordinate without a row or without a column cannot be added:
    when one of the four Indexes of [self + other] has no value, the [+]
    of the two Coordinates raises, and the same sum asked for through a
    descriptor of [other] returns [None]. *)
Theorem add_needs_both_axes :
  forall (self other : Coordinate),
    valued (_row self) && valued (_column self)
    && valued (_row other) && valued (_column other) = false ->
    (exists cls msg, add self (OCoordinate other) = Raise cls msg)
    /\ (forall d, Coordinate_init d no_column = Ok other ->
                  add self (ODescriptor d) = Ok None).
Proof.
  intros self other H.
  destruct (add_Coordinate_needs_both_axes self other H) as (cls & msg & E). split.
  - exists cls, msg. unfold add. rewrite E. reflexivity.
  - intros d Hd. unfold add. rewrite Hd. cbn [bind]. rewrite E. reflexivity.
Qed.

Lemma add_needs_both_axes_witness :
  Coordinate_init (DInt 5) no_column
  = Ok (mkCoordinate (mkIndex None (Some 5) true) (mkIndex None None false))
  /\ add (cell 1 false 1 false) (ODescriptor (DInt 5)) = Ok None.
Proof.
  split; [reflexivity |].
  apply (proj2 (add_needs_both_axes (cell 1 false 1 false)
                  (mkCoordinate (mkIndex None (Some 5) true) (mkIndex None None false))
                  eq_refl)).
  reflexivity.
Defined.

Lemma disambiguate_none_second (index0 row' column' : Index) :
  disambiguate index0 (mkIndex None None false) = Ok (row', column') ->
  valued row' && valued column' = false.
Proof.
  destruct index0 as [[[]|] [v0|] a0]; cbv; intro H; try discriminate H;
    injection H as <- <-; reflexivity.
Qed.

(** One argument that is not a text gives a Coordinate of one axis. *)
Lemma Coordinate_init_single_axis (d : descriptor) (other : Coordinate) :
  (forall s, d <> DStr s) ->
  Coordinate_init d no_column = Ok other ->
  valued (_row other) && valued (_column other) = false.
Proof.
  intros Hd. unfold Coordinate_init, no_column. cbn [is_False].
  assert (Hpair : (rc <- try_except (converttotuple (DTuple [d; DNone]))
                           (Raise AttributeError InvalidValuesForCoordinate) ;;
                   Ok (mkCoordinate (fst rc) (snd rc))) = Ok other ->
                  valued (_row other) && valued (_column other) = false).
  { cbn [converttotuple].
    destruct (parseindex d) as [i0 |]; [| discriminate]. cbn [bind parseindex].
    destruct (disambiguate i0 _) as [[a b] |] eqn:Ed; [| discriminate].
    cbn. intros [= <-]. cbn. exact (disambiguate_none_second _ _ _ Ed). }
  destruct d; try exact Hpair. exfalso. exact (Hd s eq_refl).
Qed.

(** X21. Only a text can be added as a raw descriptor: for every other
    right operand that is not a Coordinate (an integer, [None], a
    boolean, an Index, a tuple or list, the (row, column) pairs
    included), [self + other] returns [None].  [Coordinate(other)] takes
    such an operand for the row descriptor of a Coordinate without a
    column, or raises, and neither can be added. *)
Theorem add_descriptor_needs_text :
  forall (self : Coordinate) (d : descriptor),
    (forall s, d <> DStr s) ->
    add self (ODescriptor d) = Ok None.
Proof.
  intros self d Hd. unfold add.
  destruct (Coordinate_init d no_column) as [other |] eqn:E; [| reflexivity].
  cbn [bind].
  pose proof (Coordinate_init_single_axis d other Hd E) as Hv.
  destruct (add_Coordinate_needs_both_axes self other) as (cls & msg & Ea).
  { destruct (valued (_row self) && valued (_column self)); [| reflexivity].
    cbn [andb]. exact Hv. }
  rewrite Ea. reflexivity.
Qed.

Lemma add_descriptor_needs_text_witness :
  (forall s, DTuple [DInt 1; DInt 2] <> DStr s)
  /\ add (cell 3 false 3 false) (ODescriptor (DTuple [DInt 1; DInt 2])) = Ok None.
Proof.
  split; [intros s; discriminate |].
  apply (add_descriptor_needs_text (cell 3 false 3 false) (DTuple [DInt 1; DInt 2])).
  intros s. discriminate.
Defined.

(** ** Rendering a single-axis Coordinate *)

(** X22. [toA1string] of a Coordinate with a column in 1..18278 and no
    row value returns the column name followed by the text "None" (with
    the dollar signs the flags ask for): the absent row is written out as
    [str(None)].  [Coordinate] does not read that text back: it raises the
    TypeError "Invalid coordinates", so that a column-only Coordinate has
    no letter-digit text of its own. *)
Theorem toA1string_without_row :
  forall (row' column' : Index) (absolute' : bool) (c : Z),
    value row' = None ->
    value column' = Some c ->
    1 <= c <= 18278 ->
    exists text,
      toA1string (mkCoordinate row' column') absolute' = Ok text
      /\ (exists letters,
             get_column_letter c = Ok letters
             /\ text = dollar (absolute' && absolute row') ++ letters
                       ++ dollar (absolute' && absolute column') ++ "None")
      /\ Coordinate_init (DStr text) no_column
         = Raise TypeError InvalidCoordinates.
Proof.
  intros [tr vr ar] [tc vc ac] absolute' c. cbn [value absolute].
  intros -> -> Hc.
  destruct (get_column_letter_name c Hc) as (l & ls & El & Hl & Hls & _).
  exists (dollar (absolute' && ar) ++ String l ls ++ dollar (absolute' && ac) ++ "None").
  split; [| split].
  - unfold toA1string, column_letter, str. cbn [_row _column value absolute].
    rewrite El. destruct absolute'; reflexivity.
  - exists (String l ls). split; [exact El | reflexivity].
  - assert (Hs : search FULLRE (dollar (absolute' && ar) ++ String l ls
                                ++ dollar (absolute' && ac) ++ "None") = None).
    { apply search_FULLRE_no_digit. rewrite !free_of_append.
      rewrite (upper_no_digit (String l ls))
        by (cbn [forall_string]; rewrite Hl, Hls; reflexivity).
      destruct (absolute' && ar), (absolute' && ac); reflexivity. }
    unfold Coordinate_init, no_column. cbn [is_False converttotuple].
    rewrite Hs. reflexivity.
Qed.

Lemma toA1string_without_row_witness :
  value (mkIndex None None false) = None
  /\ value (mkIndex (Some Column) (Some 28) true) = Some 28
  /\ 1 <= 28 <= 18278
  /\ exists text,
       toA1string (mkCoordinate (mkIndex None None false)
                                (mkIndex (Some Column) (Some 28) true)) true
       = Ok text
       /\ Coordinate_init (DStr text) no_column = Raise TypeError InvalidCoordinates.
Proof.
  split; [reflexivity | split; [reflexivity | split; [lia |]]].
  destruct (toA1string_without_row (mkIndex None None false)
              (mkIndex (Some Column) (Some 28) true) true
              28 eq_refl eq_refl ltac:(lia)) as (text & H1 & _ & H2).
  exists text. split; assumption.
Defined.

(** * Properties of AL_Excel.Tables *)

(** ** dicts_to_table: the cells that are written *)

(** X23. The cell that [dicts_to_table] writes for the offsets
    [roffset >= 0] and [coffset >= 0] from a start cell: its row and
    column are those of the start plus the offsets, and it keeps the flags
    of the start; when the start has an absolute axis whose sum is 0 or
    less, the ValueError "Absolute Reference reduced below 0" is raised
    (the row is looked at first). *)
Theorem offset_cell_shift :
  forall (r0 c0 roffset coffset : Z) (a b : bool),
    0 <= roffset ->
    0 <= coffset ->
    offset_cell (cell r0 a c0 b) roffset coffset
    = if a && (r0 + roffset <=? 0) then Raise ValueError ReducedBelowZero
      else if b && (c0 + coffset <=? 0) then Raise ValueError ReducedBelowZero
      else Ok (cell (r0 + roffset) a (c0 + coffset) b).
Proof.
  intros r0 c0 ro co a b Hr Hc. unfold offset_cell.
  change (str_int ro) with (dollar false ++ str_int ro).
  rewrite (Coordinate_init_digit_texts ro co false Hr Hc). cbn [bind].
  rewrite add_Coordinate_cells. rewrite !andb_false_r, !orb_false_r. reflexivity.
Qed.

Lemma offset_cell_shift_witness :
  0 <= 2 /\ 0 <= 1
  /\ offset_cell (cell 3 true 2 false) 2 1 = Ok (cell 5 true 3 false).
Proof.
  split; [lia | split; [lia |]].
  apply (offset_cell_shift 3 2 2 1 true false); lia.
Defined.

(** ** dicts_to_table: headers and rows of a list of dicts *)

Section DictRowsFacts.

Variable V : Type.
Variable blank : V.

Lemma existsb_eqb_In (h : string) (l : list string) :
  existsb (String.eqb h) l = true <-> In h l.
Proof.
  rewrite existsb_exists. split.
  - intros (x & Hx & E). apply String.eqb_eq in E. subst x. exact Hx.
  - intro H. exists h. split; [exact H | apply String.eqb_refl].
Qed.

Lemma collect_headers_spec (iheaders : list string) :
  forall headers,
    NoDup headers ->
    NoDup (collect_headers iheaders headers)
    /\ (forall h, In h (collect_headers iheaders headers)
                  <-> In h headers \/ In h iheaders).
Proof.
  induction iheaders as [| x l IH]; intros headers Hnd; cbn [collect_headers].
  - split; [exact Hnd |]. intro h. cbn. tauto.
  - destruct (existsb (String.eqb x) headers) eqn:E.
    + apply existsb_eqb_In in E. destruct (IH headers Hnd) as [H1 H2].
      split; [exact H1 |]. intro h. rewrite H2. cbn. split; [tauto |].
      intros [H | [<- | H]]; tauto.
    + assert (Hx : ~ In x headers).
      { intro H. apply existsb_eqb_In in H. congruence. }
      assert (Hnd' : NoDup (headers ++ [x])).
      { apply NoDup_app; [exact Hnd | repeat constructor; intros [] |].
        intros y Hy [<- | []]. exact (Hx Hy). }
      destruct (IH _ Hnd') as [H1 H2].
      split; [exact H1 |]. intro h. rewrite H2, in_app_iff. cbn. tauto.
Qed.

Lemma collect_headers_cons (iheaders : list string) :
  forall (a : string) (headers : list string),
    collect_headers iheaders (a :: headers)
    = a :: collect_headers
             (filter (fun h => negb (String.eqb h a)) iheaders) headers.
Proof.
  induction iheaders as [| x l IH]; intros a headers; cbn [collect_headers filter].
  - reflexivity.
  - cbn [existsb]. destruct (String.eqb x a) eqn:E; cbn [orb negb].
    + apply IH.
    + cbn [collect_headers].
      destruct (existsb (String.eqb x) headers); apply IH.
Qed.

Lemma normalize_dicts_headers (dinput : list (dict V)) :
  let headers := fst (normalize_dicts V blank dinput None) in
  NoDup headers
  /\ (forall h, In h headers <-> exists item, In item dinput /\ In h (dict_keys V item)).
Proof.
  intro headers. unfold headers, normalize_dicts. cbn [fst].
  destruct (collect_headers_spec (List.concat (map (dict_keys V) dinput)) [] (NoDup_nil _))
    as [H1 H2].
  split; [exact H1 |].
  intro h. rewrite H2, in_concat. cbn. split.
  - intros [[] | (ks & Hks & Hh)]. apply in_map_iff in Hks as (item & <- & Hitem).
    exists item. auto.
  - intros (item & Hitem & Hh). right. exists (dict_keys V item).
    split; [apply in_map; exact Hitem | exact Hh].
Qed.

(** X24. The headers that [dicts_to_table] derives from a list of dicts
    when none are given: every key of every item, each exactly once, in
    the order of first appearance (the first key of the first item comes
    first, and the rest is what the same procedure gives on the remaining
    keys without it). *)
Theorem dict_headers :
  forall (dinput : list (dict V)),
    let headers := fst (normalize_dicts V blank dinput None) in
    NoDup headers
    /\ (forall h, In h headers <-> exists item, In item dinput /\ In h (dict_keys V item))
    /\ (forall h iheaders,
           List.concat (map (dict_keys V) dinput) = h :: iheaders ->
           headers
           = h :: collect_headers
                    (filter (fun x => negb (String.eqb x h)) iheaders) []).
Proof.
  intros dinput headers.
  destruct (normalize_dicts_headers dinput) as [H1 H2].
  split; [exact H1 | split; [exact H2 |]].
  intros h iheaders E. unfold headers, normalize_dicts. cbn [fst].
  rewrite E. cbn [collect_headers existsb app].
  apply collect_headers_cons.
Qed.

Lemma dict_get_In (item : dict V) (k : string) (v : V) :
  NoDup (dict_keys V item) -> In (k, v) item -> dict_get V item k blank = v.
Proof.
  induction item as [| [k' v'] item IH]; intros Hnd Hin; [destruct Hin |].
  cbn [dict_get]. cbn [dict_keys map fst] in Hnd. inversion Hnd as [| ? ? Hk Hnd']; subst.
  destruct Hin as [[= -> ->] | Hin].
  - rewrite String.eqb_refl. reflexivity.
  - destruct (String.eqb_spec k' k) as [-> | _].
    + exfalso. apply Hk. change (In (fst (k, v)) (map fst item)). apply in_map, Hin.
    + apply IH; assumption.
Qed.

Lemma dict_get_missing (item : dict V) (k : string) :
  ~ In k (dict_keys V item) -> dict_get V item k blank = blank.
Proof.
  induction item as [| [k' v'] item IH]; intro H; [reflexivity |].
  cbn [dict_get]. cbn [dict_keys map fst In] in H.
  destruct (String.eqb_spec k' k) as [-> | _]; [tauto |].
  apply IH. unfold dict_keys. tauto.
Qed.

(** X25. The rows that [dicts_to_table] makes of a list of dicts: the
    i-th item gives the i-th row, as long as the headers; under the j-th
    header the row holds the item's value for that key, and the blank
    text where the item has no such key.  With derived headers no key of
    an item is left out; with given headers the keys outside them are
    dropped. *)
Theorem dict_rows :
  forall (dinput : list (dict V)) (given : option (list string))
         (i : nat) (item : dict V),
    nth_error dinput i = Some item ->
    NoDup (dict_keys V item) ->
    let headers := fst (normalize_dicts V blank dinput given) in
    exists row,
      nth_error (snd (normalize_dicts V blank dinput given)) i = Some row
      /\ List.length row = List.length headers
      /\ (forall j h v,
             nth_error headers j = Some h -> In (h, v) item ->
             nth_error row j = Some v)
      /\ (forall j h,
             nth_error headers j = Some h -> ~ In h (dict_keys V item) ->
             nth_error row j = Some blank)
      /\ (given = None -> forall k v, In (k, v) item -> In k headers)
      /\ (forall l, given = Some l -> headers = l).
Proof.
  intros dinput given i item Hi Hnd headers.
  exists (map (fun key => dict_get V item key blank) headers).
  split; [| split; [| split; [| split; [| split]]]].
  - unfold headers, normalize_dicts. cbn [fst snd].
    rewrite nth_error_map, Hi. reflexivity.
  - apply length_map.
  - intros j h v Hj Hin. rewrite nth_error_map, Hj. cbn.
    rewrite (dict_get_In item h v Hnd Hin). reflexivity.
  - intros j h Hj Hin. rewrite nth_error_map, Hj. cbn.
    rewrite (dict_get_missing item h Hin). reflexivity.
  - intros E k v Hin. unfold headers. rewrite E.
    apply (proj2 (normalize_dicts_headers dinput)).
    exists item. split; [exact (nth_error_In _ _ Hi) |].
    change (In (fst (k, v)) (map fst item)). apply in_map, Hin.
  - intros l E. unfold headers. rewrite E. reflexivity.
Qed.

End DictRowsFacts.

Lemma dict_headers_witness :
  fst (normalize_dicts Z 0 [[("a", 1); ("b", 2)]; [("c", 3); ("a", 4)]] None)
  = ["a"; "b"; "c"].
Proof.
  exact (proj2 (proj2 (dict_headers Z 0 [[("a", 1); ("b", 2)]; [("c", 3); ("a", 4)]]))
           "a" ["b"; "c"; "a"] eq_refl).
Defined.

Lemma dict_rows_witness :
  nth_error [[("a", 1); ("b", 2)]; [("c", 3); ("a", 4)]] 1 = Some [("c", 3); ("a", 4)]
  /\ NoDup (dict_keys Z [("c", 3); ("a", 4)])
  /\ exists row,
       nth_error (snd (normalize_dicts Z 0
                         [[("a", 1); ("b", 2)]; [("c", 3); ("a", 4)]] None)) 1
       = Some row
       /\ List.length row
          = List.length (fst (normalize_dicts Z 0
                                [[("a", 1); ("b", 2)]; [("c", 3); ("a", 4)]] None)).
Proof.
  assert (Hnd : NoDup (dict_keys Z [("c", 3); ("a", 4)])).
  { repeat constructor; cbn; intuition discriminate. }
  split; [reflexivity | split; [exact Hnd |]].
  destruct (dict_rows Z 0 [[("a", 1); ("b", 2)]; [("c", 3); ("a", 4)]] None 1
              [("c", 3); ("a", 4)] eq_refl Hnd) as (row & H1 & H2 & _).
  exists row. split; assumption.
Defined.

(** ** EnhancedTable.insertcolumn *)

Lemma list_insert_split {A : Type} (l : list A) (index : Z) (x : A) :
  index < Z.of_nat (List.length l) ->
  exists before after,
    l = (before ++ after)%list
    /\ list_insert l index x = (before ++ x :: after)%list
    /\ (l <> [] -> after <> [])
    /\ (0 <= index -> List.length before = Z.to_nat index)
    /\ (index < 0 -> Z.of_nat (List.length before)
                     = Z.max 0 (index + Z.of_nat (List.length l))).
Proof.
  intro H. unfold list_insert.
  set (n := Z.of_nat (List.length l)) in *.
  set (i := if index <? 0 then Z.max 0 (index + n) else Z.min index n).
  assert (Hi : 0 <= i /\ (l <> [] -> i < n) /\ i <= n).
  { unfold i. destruct (index <? 0) eqn:E.
    - apply Z.ltb_lt in E. repeat split; try lia. intro Hl.
      assert (0 < n) by (unfold n; destruct l; [congruence | cbn; lia]). lia.
    - apply Z.ltb_ge in E. repeat split; lia. }
  destruct Hi as (Hi0 & Hi1 & Hi2).
  exists (firstn (Z.to_nat i) l), (skipn (Z.to_nat i) l).
  split; [symmetry; apply firstn_skipn | split; [reflexivity |]].
  assert (Hlen : List.length (firstn (Z.to_nat i) l) = Z.to_nat i).
  { apply firstn_length_le. unfold n in Hi2. lia. }
  split; [| split].
  - intros Hl Hs. specialize (Hi1 Hl).
    assert (Hk : List.length (skipn (Z.to_nat i) l) = 0%nat) by (rewrite Hs; reflexivity).
    rewrite length_skipn in Hk. unfold n in Hi1. lia.
  - intro H0. rewrite Hlen. unfold i.
    replace (index <? 0) with false by (symmetry; apply Z.ltb_ge; lia).
    f_equal. lia.
  - intro H0. rewrite Hlen. unfold i.
    replace (index <? 0) with true by (symmetry; apply Z.ltb_lt; lia).
    lia.
Qed.

(** X26. Where [insertcolumn] puts the new column: an index at or beyond
    the number of columns raises the ValueError "Index outside of Table
    Range", so that no index appends a column; otherwise the old columns
    keep their order, the new one, whose id is the old number of columns,
    is put between them, and on a table that has columns at least one old
    column comes after it.  Without an index the new column goes before
    the last column (the docstring says "at the end of the table"). *)
Theorem insertcolumn_position :
  forall (tableColumns : list TableColumn) (index : option Z)
         (columnname : option string),
    let collen := Z.of_nat (List.length tableColumns) in
    (match index with Some index => collen <= index | None => False end ->
     insertcolumn tableColumns index columnname = IndexOutsideOfTableRange)
    /\ (match index with Some index => index < collen | None => True end ->
        exists before after new,
          insertcolumn tableColumns index columnname
          = Columns (before ++ new :: after)%list
          /\ tableColumns = (before ++ after)%list
          /\ column_id new = collen
          /\ (tableColumns <> [] -> after <> [])
          /\ (index = None -> List.length after = Nat.min 1 (List.length tableColumns))).
Proof.
  intros cols index columnname collen. unfold insertcolumn. fold collen. split.
  - destruct index as [index |]; [| tauto]. intro H.
    replace (index >=? collen) with true by (symmetry; apply Z.geb_le; lia).
    reflexivity.
  - intro H.
    set (index' := match index with None => collen - 1 | Some index => index end).
    assert (Hlt : index' < collen) by (unfold index'; destruct index; lia).
    replace (index' >=? collen) with false
      by (symmetry; rewrite Z.geb_leb; apply Z.leb_gt; lia).
    match goal with |- context [mkTableColumn collen ?n] => set (nm := n) end.
    destruct (list_insert_split cols index' (mkTableColumn collen nm) Hlt)
      as (before & after & E & Hins & Hlast & Hpos & Hneg).
    exists before, after, (mkTableColumn collen nm).
    split; [rewrite Hins; reflexivity | split; [exact E | split; [reflexivity | split]]].
    + exact Hlast.
    + intros ->. unfold index' in *.
      assert (Hall : List.length cols = (List.length before + List.length after)%nat)
        by (rewrite E at 1; apply length_app).
      destruct cols as [| c cols'].
      * destruct before, after; cbn in *; try discriminate; reflexivity.
      * assert (Hb : List.length before = Z.to_nat (collen - 1)).
        { apply Hpos. unfold collen. cbn [List.length]. lia. }
        unfold collen in *. cbn [List.length] in *. lia.
Qed.

Lemma insertcolumn_position_witness :
  Z.of_nat (List.length [mkTableColumn 1 "A"; mkTableColumn 2 "B"]) <= 2
  /\ insertcolumn [mkTableColumn 1 "A"; mkTableColumn 2 "B"] (Some 2) None
     = IndexOutsideOfTableRange.
Proof.
  split; [cbn; lia |].
  apply (proj1 (insertcolumn_position [mkTableColumn 1 "A"; mkTableColumn 2 "B"]
                  (Some 2) None)).
  cbn. lia.
Defined.




(** ** dicts_to_table: the generated table name *)

(** X28. The loop that generates a table name never tries a second name
    (its counter is never incremented): when the sheet has no table
    "Table1" the name is "Table1" after one round; when it has one the
    loop asks for "Table1" again and again and never ends (no number of
    rounds gives a name); no other name is ever generated. *)
Theorem autogenerate_tablename_only_Table1 :
  forall (Table : Type) (get_table_by_name : string -> result (option Table)),
    (get_table_by_name "Table1" = Ok None ->
     forall fuel, autogenerate_tablename Table get_table_by_name (S fuel)
                  = Ok (Some "Table1"))
    /\ (forall t, get_table_by_name "Table1" = Ok (Some t) ->
        forall fuel, autogenerate_tablename Table get_table_by_name fuel = Ok None)
    /\ (forall fuel name,
           autogenerate_tablename Table get_table_by_name fuel = Ok (Some name) ->
           name = "Table1").
Proof.
  intros Table get. split; [| split].
  - intros H fuel. cbn [autogenerate_tablename].
    change ("Table" ++ str_int 1) with "Table1". rewrite H. reflexivity.
  - intros t H fuel. induction fuel as [| fuel IH]; [reflexivity |].
    cbn [autogenerate_tablename].
    change ("Table" ++ str_int 1) with "Table1". rewrite H. cbn [bind]. exact IH.
  - intros fuel. induction fuel as [| fuel IH]; intros name; [discriminate |].
    cbn [autogenerate_tablename].
    change ("Table" ++ str_int 1) with "Table1".
    destruct (get "Table1") as [[t |] |]; cbn [bind].
    + apply IH.
    + intros [= <-]. reflexivity.
    + discriminate.
Qed.

Lemma autogenerate_tablename_only_Table1_witness :
  (fun name : string => if String.eqb name "Table1" then Ok (Some tt) else Ok None)
    "Table1" = Ok (Some tt)
  /\ autogenerate_tablename unit
       (fun name => if String.eqb name "Table1" then Ok (Some tt) else Ok None)
       1000 = Ok None.
Proof.
  split; [reflexivity |].
  apply (proj1 (proj2 (autogenerate_tablename_only_Table1 unit
                         (fun name => if String.eqb name "Table1"
                                      then Ok (Some tt) else Ok None)))
           tt eq_refl).
Defined.

(** ** gettablesize *)

Section TableSizeFacts.

Variable cell_value : Z -> Z -> bool.

Lemma blankrow_true_iff (endcolumn row : Z) :
  blankrow cell_value endcolumn row = true
  <-> forall col, 1 <= col <= endcolumn -> cell_value row col = false.
Proof.
  unfold blankrow. rewrite forallb_forall. split.
  - intros H col Hcol.
    assert (Hin : In (Z.to_nat col) (seq 1 (Z.to_nat endcolumn))) by (apply in_seq; lia).
    specialize (H _ Hin). apply negb_true_iff in H.
    rewrite Z2Nat.id in H by lia. exact H.
  - intros H x Hx. apply in_seq in Hx. apply negb_true_iff. apply H. lia.
Qed.

Lemma blankrow_false (endcolumn row : Z) :
  (exists col, 1 <= col <= endcolumn /\ cell_value row col = true) ->
  blankrow cell_value endcolumn row = false.
Proof.
  intros (col & Hcol & Hv).
  destruct (blankrow cell_value endcolumn row) eqn:E; [| reflexivity].
  rewrite (proj1 (blankrow_true_iff endcolumn row) E col Hcol) in Hv. discriminate.
Qed.

Lemma scan_columns_run (n : nat) :
  forall (fuel : nat) (row column : Z),
    (n < fuel)%nat ->
    (forall k, column < k <= column + Z.of_nat n -> cell_value row k = true) ->
    cell_value row (column + Z.of_nat n + 1) = false ->
    scan_columns cell_value fuel 0 row column 0 = Some (column + Z.of_nat n + 1, 1).
Proof.
  induction n as [| n IH]; intros fuel row column Hf Hfull Hend.
  - destruct fuel as [| fuel]; [lia |]. cbn [scan_columns Z.eqb orb].
    rewrite Z.add_0_r in Hend. rewrite Hend.
    destruct fuel; cbn; rewrite Z.add_0_r; reflexivity.
  - destruct fuel as [| fuel]; [lia |]. cbn [scan_columns Z.eqb orb].
    rewrite (Hfull (column + 1)) by lia.
    rewrite (IH fuel row (column + 1)); [f_equal; f_equal; lia | lia | |].
    + intros k Hk. apply Hfull. lia.
    + rewrite <- Hend. f_equal. lia.
Qed.

Lemma scan_rows_run (n : nat) :
  forall (fuel : nat) (endcolumn row : Z),
    (n < fuel)%nat ->
    (forall k, row < k <= row + Z.of_nat n -> blankrow cell_value endcolumn k = false) ->
    blankrow cell_value endcolumn (row + Z.of_nat n + 1) = true ->
    scan_rows cell_value fuel 0 endcolumn row 0 = Some (row + Z.of_nat n + 1, 1).
Proof.
  induction n as [| n IH]; intros fuel endcolumn row Hf Hfull Hend.
  - destruct fuel as [| fuel]; [lia |]. cbn [scan_rows Z.eqb orb].
    rewrite Z.add_0_r in Hend. rewrite Hend.
    destruct fuel; cbn; rewrite Z.add_0_r; reflexivity.
  - destruct fuel as [| fuel]; [lia |]. cbn [scan_rows Z.eqb orb].
    rewrite (Hfull (row + 1)) by lia.
    rewrite (IH fuel endcolumn (row + 1)); [f_equal; f_equal; lia | lia | |].
    + intros k Hk. apply Hfull. lia.
    + rewrite <- Hend. f_equal. lia.
Qed.

(** X29. [gettablesize] without greedy columns or rows, on a sheet whose
    header row [startrow] has values from [startcolumn] to [endcolumn] and
    none in the next column: given enough rounds, both scans end and the
    range goes from (startcolumn, startrow) to (endcolumn, endrow), where
    [endrow + 1] is the first row from row 2 on without a value in the
    columns 1 to [endcolumn].  The rows are counted from row 2 and looked
    at from column 1, whatever [startrow] and [startcolumn] are. *)
Theorem gettablesize_plain :
  forall (fuel : nat) (startcolumn startrow endcolumn endrow : Z),
    1 <= startcolumn ->
    1 <= startrow ->
    startcolumn <= endcolumn ->
    1 <= endrow ->
    (Z.to_nat (endcolumn - startcolumn) < fuel)%nat ->
    (Z.to_nat (endrow - 1) < fuel)%nat ->
    (forall k, startcolumn <= k <= endcolumn -> cell_value startrow k = true) ->
    cell_value startrow (endcolumn + 1) = false ->
    (forall k, 2 <= k <= endrow ->
               exists col, 1 <= col <= endcolumn /\ cell_value k col = true) ->
    (forall col, 1 <= col <= endcolumn -> cell_value (endrow + 1) col = false) ->
    gettablesize cell_value fuel startcolumn startrow 0 0
    = Some (Some (startcolumn, startrow, endcolumn, endrow)).
Proof.
  intros fuel sc sr ec er _ _ Hc Hr Hf1 Hf2 Hhead Hstop Hrows' Hblank'.
  assert (Hrows : forall k, 2 <= k <= er -> blankrow cell_value ec k = false)
    by (intros k Hk; apply blankrow_false, Hrows', Hk).
  assert (Hblank : blankrow cell_value ec (er + 1) = true)
    by (apply blankrow_true_iff, Hblank').
  unfold gettablesize. rewrite (Hhead sc) by lia.
  rewrite (scan_columns_run (Z.to_nat (ec - sc)) fuel sr sc Hf1).
  2:{ intros k Hk. apply Hhead. lia. }
  2:{ rewrite <- Hstop. f_equal. lia. }
  replace (sc + Z.of_nat (Z.to_nat (ec - sc)) + 1 - 1) with ec by lia.
  replace (ec <? sc) with false by (symmetry; apply Z.ltb_ge; lia).
  destruct (Z.eq_dec er 1) as [-> | Hne].
  - change (1 + 1) with 2 in Hblank. rewrite Hblank.
    destruct fuel; cbn [scan_rows Z.eqb orb negb andb]; reflexivity.
  - rewrite (Hrows 2) by lia.
    rewrite (scan_rows_run (Z.to_nat (er - 2)) fuel ec 2); [| lia | |].
    + repeat f_equal. lia.
    + intros k Hk. apply Hrows. lia.
    + rewrite <- Hblank. f_equal. lia.
Qed.

(** X30. [gettablesize] without greedy columns on a start cell without a
    value returns [None] at once: no column and no row is scanned,
    whatever [greedyrows] is. *)
Theorem gettablesize_blank_start :
  forall (fuel : nat) (startcolumn startrow greedyrows : Z),
    1 <= startcolumn ->
    1 <= startrow ->
    cell_value startrow startcolumn = false ->
    gettablesize cell_value fuel startcolumn startrow 0 greedyrows = Some None.
Proof.
  intros fuel sc sr gr _ _ H. unfold gettablesize. rewrite H.
  destruct fuel; cbn [scan_columns Z.eqb orb negb andb];
    (replace (sc - 1 <? sc) with true by (symmetry; apply Z.ltb_lt; lia));
    reflexivity.
Qed.

End TableSizeFacts.

Lemma gettablesize_plain_witness :
  gettablesize docstring_sheet 10 1 1 0 0 = Some (Some (1, 1, 4, 4)).
Proof.
  apply (gettablesize_plain docstring_sheet 10 1 1 4 4); try lia; try reflexivity.
  - intros k Hk.
    assert (E : k = 1 \/ k = 2 \/ k = 3 \/ k = 4) by lia.
    destruct E as [-> | [-> | [-> | ->]]]; reflexivity.
  - intros k Hk.
    assert (E : k = 2 \/ k = 3 \/ k = 4) by lia.
    destruct E as [-> | [-> | ->]];
      [exists 1 | exists 2 | exists 1]; (split; [lia | reflexivity]).
Defined.

Lemma gettablesize_blank_start_witness :
  docstring_sheet 3 1 = false
  /\ gettablesize docstring_sheet 0 1 3 0 2 = Some None.
Proof.
  split; [reflexivity |].
  apply (gettablesize_blank_start docstring_sheet 0 1 3 2); [lia | lia | reflexivity].
Defined.
